(** * Triage Ninja: the decision broker and the triage pipeline

    A shallow embedding of
    - [src/discord_bot.py]: the process-wide [pending_decisions] registry,
      the button / modal / timeout handlers that resolve it, and
      [send_triage_request] with its polling wait loop;
    - [src/tools/discord_tools_portia.py]: [DiscordManager.send_triage_request];
    - [src/agent.py]: [TriageState] and the five phases of
      [SophisticatedTriageAgent.triage_new_issue];
    - [src/tools/github_tools_portia.py], [src/tools/weaviate_tools_portia.py]:
      the boolean-returning record-store calls and [WeaviateManager.add_issue],
      which catch every exception themselves. *)

From Stdlib Require Import QArith Ascii.
From stdpp Require Import base gmap strings pretty list.

(* ------------------------------------------------------------------ *)
(** ** Python values *)

(** The values stored in the ["data"] dict of a decision and in the
    action map: strings, booleans and [None]. *)
Inductive pyval :=
| PNone
| PStr (s : string)
| PBool (b : bool).

(** [str(v)] as used inside the f-strings of the source. *)
Definition py_str (v : pyval) : string :=
  match v with
  | PNone => "None"
  | PStr s => s
  | PBool true => "True"
  | PBool false => "False"
  end.

(** Python truthiness of a [pyval]. *)
Definition py_truthy (v : pyval) : bool :=
  match v with
  | PNone => false
  | PStr s => negb (String.eqb s "")
  | PBool b => b
  end.

Definition opt_str (o : option string) : pyval :=
  match o with Some s => PStr s | None => PNone end.

(** A Python dict with string keys, kept as an association list in
    insertion order (the order matters for the completion summary). *)
Abbreviation pydict := (list (string * pyval)).

(** [d.get(k, default)]. *)
Fixpoint dict_get (d : pydict) (k : string) (default : pyval) : pyval :=
  match d with
  | [] => default
  | (k', v) :: d' => if String.eqb k k' then v else dict_get d' k default
  end.

(** [d[k] = v]: update in place when present, append otherwise. *)
Fixpoint dict_set (d : pydict) (k : string) (v : pyval) : pydict :=
  match d with
  | [] => [(k, v)]
  | (k', v') :: d' =>
      if String.eqb k k' then (k', v) :: d' else (k', v') :: dict_set d' k v
  end.

Definition dict_keys (d : pydict) : list string := map fst d.

(** A decision dict [{"decision": ..., "data": {...}}]. *)
Record decision_record := mk_decision {
  rec_decision : string;
  rec_data : pydict
}.

(** [discord_bot.TriageView.approve_button]. *)
Definition approve_record : decision_record := mk_decision "approve" [].
(** [discord_bot.TriageView.reject_button]. *)
Definition reject_record : decision_record := mk_decision "reject" [].
(** [discord_bot.TriageView.on_timeout] and the wait loop's own timeout. *)
Definition timeout_record : decision_record := mk_decision "timeout" [].

(** [discord_bot.ModifyModal.on_submit]: a modified approval. *)
Definition bot_modify_record (severity text : string) (is_duplicate : bool)
  : decision_record :=
  mk_decision "approve"
    [("severity", PStr severity);
     ("summary", if is_duplicate then PNone else PStr text);
     ("comment", if is_duplicate then PStr text else PNone);
     ("modified", PBool true)].

(** [discord_tools_portia.ModifyModal.on_submit]: the other interactive
    path, whose decision kind is ["modify"]. *)
Definition tools_modify_record (severity text : string) (is_duplicate : bool)
  : decision_record :=
  mk_decision "modify"
    [("severity", PStr severity);
     ("summary", if is_duplicate then PNone else PStr text);
     ("comment", if is_duplicate then PStr text else PNone)].

(** Python exceptions: a computation either returns or raises with a
    message. *)
Inductive res (A : Type) :=
| Ok (a : A)
| Exc (msg : string).
Arguments Ok {A} a.
Arguments Exc {A} msg.

(* ------------------------------------------------------------------ *)
(** ** The pending-decision registry of [discord_bot.py] *)

Module Broker.

(** [f"issue_{issue_number}"]. *)
Definition decision_key (issue_number : Z) : string :=
  String.append "issue_" (pretty issue_number).

(** [pending_decisions : Dict[str, asyncio.Future]].  Futures are objects
    with identity, so the registry maps a key to a future id, and the heap
    [futures] maps a future id to its state: [None] while not done,
    [Some r] once [set_result(r)] ran. *)
Record broker := mk_broker {
  pending : gmap string nat;
  futures : gmap nat (option decision_record);
  next_future : nat
}.

Definition empty_broker : broker := mk_broker ∅ ∅ 0.

(** [pending_decisions[key] = asyncio.Future()]. *)
Definition register (k : string) (b : broker) : broker :=
  mk_broker (<[k := next_future b]> (pending b))
            (<[next_future b := None]> (futures b))
            (S (next_future b)).

(** The guard shared by every handler ([approve_button], [reject_button],
    [ModifyModal.on_submit], [on_timeout]):
    [if key in pending_decisions: if not fut.done(): fut.set_result(r)]. *)
Definition resolve (k : string) (r : decision_record) (b : broker) : broker :=
  match pending b !! k with
  | Some f =>
      match futures b !! f with
      | Some None => mk_broker (pending b) (<[f := Some r]> (futures b)) (next_future b)
      | _ => b
      end
  | None => b
  end.

(** [if key in pending_decisions: del pending_decisions[key]]. *)
Definition remove (k : string) (b : broker) : broker :=
  mk_broker (delete k (pending b)) (futures b) (next_future b).

(** What other execution contexts may do while a pipeline sleeps in its
    wait loop: a UI handler resolving a key, another [send_triage_request]
    registering a key, or the [finally] of another one removing it. *)
Inductive event :=
| EvResolve (k : string) (r : decision_record)
| EvRegister (k : string)
| EvRemove (k : string).

Definition apply_event (b : broker) (ev : event) : broker :=
  match ev with
  | EvResolve k r => resolve k r b
  | EvRegister k => register k b
  | EvRemove k => remove k b
  end.

Definition apply_events (evs : list event) (b : broker) : broker :=
  foldl apply_event b evs.

(** [timeout_duration = 3700]. *)
Definition timeout_duration : nat := 3700.

(** The polling loop of [send_triage_request].  [elapsed] counts the
    one-second sleeps; [sched] lists, per sleep, the events other contexts
    run during it.  A missing key raises [KeyError], which the loop's own
    [except] turns into a timeout record.  The fuel is never exhausted from
    [wait_loop (S timeout_duration) 0]: the timeout test fires first. *)
Fixpoint wait_loop (fuel elapsed : nat) (k : string)
    (sched : list (list event)) (b : broker) : decision_record * broker :=
  match pending b !! k with
  | None => (timeout_record, b)
  | Some f =>
      match futures b !! f with
      | Some (Some r) => (r, b)
      | _ =>
          if Nat.ltb timeout_duration elapsed then (timeout_record, b)
          else
            let b' := apply_events (nth elapsed sched []) b in
            match fuel with
            | O => (timeout_record, b')
            | S fuel' => wait_loop fuel' (S elapsed) k sched b'
            end
      end
  end.

(** [discord_bot.send_triage_request]: look up the channel (a failure to
    parse the configured id or to find the channel raises), send the
    message (may raise), register the future, poll, and always run the
    [finally] clean-up.  Every exception is re-raised wrapped. The
    completion reply catches all its exceptions and is not modelled. *)
Definition bot_send_triage_request (issue_number : Z)
    (channel_found send_ok : bool) (sched : list (list event)) (b : broker)
    : res decision_record * broker :=
  let k := decision_key issue_number in
  if negb channel_found then
    (Exc "Discord integration failed: channel not accessible - HUMAN INPUT REQUIRED",
     remove k b)
  else if negb send_ok then
    (Exc "Discord integration failed: send failed - HUMAN INPUT REQUIRED",
     remove k b)
  else
    let '(r, b') := wait_loop (S timeout_duration) 0 k sched (register k b) in
    (Ok r, remove k b').

End Broker.

(* ------------------------------------------------------------------ *)
(** ** [DiscordManager.send_triage_request] *)

Module Channel.
Import Broker.

(** What [DiscordManager.send_triage_request] finds when it tries to reach
    the bot's event loop. *)
Inductive loop_mode :=
| SameLoop                               (* awaited directly *)
| OtherLoop (returned_in_time : bool)    (* run_coroutine_threadsafe + result(timeout=3700) *)
| NoRunningLoop (bot_loop_present : bool)
| OtherRuntimeError.                     (* re-raised *)

(** The environment of one call: the configured webhook URL, whether
    [from discord_bot import ...] succeeds, the event-loop situation,
    what the bot meets (channel, send) and the UI events during the wait,
    and whether the webhook POST of the import-failure path succeeds. *)
Record channel_env := mk_channel_env {
  webhook_url : string;
  bot_importable : bool;
  mode : loop_mode;
  channel_found : bool;
  send_ok : bool;
  ui_events : list (list event);
  webhook_post_ok : bool
}.

(** [except Exception as e: raise Exception(f"Discord triage request failed: {e} - HUMAN INPUT REQUIRED")]. *)
Definition wrap_failure (msg : string) : string :=
  String.append "Discord triage request failed: "
    (String.append msg " - HUMAN INPUT REQUIRED").

Definition reraise {A} (r : res A) : res A :=
  match r with
  | Ok a => Ok a
  | Exc m => Exc (wrap_failure m)
  end.

Definition manager_send_triage_request (issue_number : Z) (env : channel_env)
    (b : broker) : res decision_record * broker :=
  if String.eqb (webhook_url env) "" then
    (* if not self.webhook_url: return {"decision": "approve", "data": {}} *)
    (Ok approve_record, b)
  else if bot_importable env then
    let run := bot_send_triage_request issue_number (channel_found env)
                 (send_ok env) (ui_events env) b in
    match mode env with
    | SameLoop => (reraise (fst run), snd run)
    | OtherLoop true => (reraise (fst run), snd run)
    | OtherLoop false => (Exc (wrap_failure "TimeoutError"), snd run)
    | NoRunningLoop true => (reraise (fst run), snd run)
    | NoRunningLoop false =>
        (Exc (wrap_failure "No event loop available for Discord bot communication"), b)
    | OtherRuntimeError => (Exc (wrap_failure "RuntimeError"), b)
    end
  else if webhook_post_ok env then
    (Exc (wrap_failure "Discord bot integration failed - Cannot proceed without human interaction"), b)
  else
    (Exc (wrap_failure "HTTPError"), b).

End Channel.

(* ------------------------------------------------------------------ *)
(** ** The triage pipeline of [agent.py] *)

Module Pipeline.

(** The inbound [issue_data] dict: [None] stands for a missing key; a
    field present with a string value is [Some].  A JSON [null] value is
    not represented: Python keeps it as [None], which [init_state] below
    does not model, so the text fields are taken to be strings or absent. *)
Record issue_data := mk_issue_data {
  in_number : option Z;
  in_title : option string;
  in_body : option string;
  in_html_url : option string;
  in_repository : option string   (* issue_data["repository"]["full_name"] *)
}.

(** [class TriageState]. *)
Record triage_state := mk_state {
  issue_id : Z;
  issue_title : string;
  issue_body : string;
  issue_url : string;
  repository : string;
  severity : option string;
  ai_summary : option string;
  is_duplicate : bool;
  similarity_score : option Q;
  duplicate_issue_id : option Z;
  proposed_comment : option string;
  human_decision : option decision_record;
  actions_executed : pydict;
  completion_message_sent : bool
}.

(** [TriageState.__init__] on a dict whose present fields are strings
    (and an int number): [issue_data.get(key, default)]. *)
Definition init_state (d : issue_data) : triage_state :=
  mk_state (default 0%Z (in_number d)) (default "Unknown" (in_title d))
    (default "" (in_body d)) (default "" (in_html_url d))
    (default "unknown/repo" (in_repository d))
    None None false None None None None [] false.

(** Attribute writes on the state object. *)
Definition set_analysis (sev summ : option string) (s : triage_state) : triage_state :=
  mk_state (issue_id s) (issue_title s) (issue_body s) (issue_url s) (repository s)
    sev summ (is_duplicate s) (similarity_score s) (duplicate_issue_id s)
    (proposed_comment s) (human_decision s) (actions_executed s)
    (completion_message_sent s).

Definition set_duplicate (dup : bool) (score : option Q) (did : option Z)
    (comment : option string) (s : triage_state) : triage_state :=
  mk_state (issue_id s) (issue_title s) (issue_body s) (issue_url s) (repository s)
    (severity s) (ai_summary s) dup score did comment (human_decision s)
    (actions_executed s) (completion_message_sent s).

Definition set_is_duplicate (dup : bool) (s : triage_state) : triage_state :=
  set_duplicate dup (similarity_score s) (duplicate_issue_id s) (proposed_comment s) s.

Definition set_human_decision (r : decision_record) (s : triage_state) : triage_state :=
  mk_state (issue_id s) (issue_title s) (issue_body s) (issue_url s) (repository s)
    (severity s) (ai_summary s) (is_duplicate s) (similarity_score s)
    (duplicate_issue_id s) (proposed_comment s) (Some r) (actions_executed s)
    (completion_message_sent s).

Definition set_action (k : string) (v : pyval) (s : triage_state) : triage_state :=
  mk_state (issue_id s) (issue_title s) (issue_body s) (issue_url s) (repository s)
    (severity s) (ai_summary s) (is_duplicate s) (similarity_score s)
    (duplicate_issue_id s) (proposed_comment s) (human_decision s)
    (dict_set (actions_executed s) k v) (completion_message_sent s).

Definition set_completion (b : bool) (s : triage_state) : triage_state :=
  mk_state (issue_id s) (issue_title s) (issue_body s) (issue_url s) (repository s)
    (severity s) (ai_summary s) (is_duplicate s) (similarity_score s)
    (duplicate_issue_id s) (proposed_comment s) (human_decision s)
    (actions_executed s) b.

(** [TriageClarification(...)]: the request handed to the channel. *)
Record clarification := mk_clarification {
  cl_issue_title : string;
  cl_issue_number : Z;
  cl_severity : option string;
  cl_ai_summary : option string;
  cl_issue_body : string;
  cl_is_duplicate : bool;
  cl_similarity_score : option Q;
  cl_duplicate_issue_id : option Z
}.

Definition make_clarification (s : triage_state) : clarification :=
  mk_clarification (issue_title s) (issue_id s) (severity s) (ai_summary s)
    (issue_body s) (is_duplicate s) (similarity_score s) (duplicate_issue_id s).

(** Calls to the external systems, logged in order. *)
Inductive call :=
| CAddLabel (n : Z) (label : pyval)        (* github_manager.add_label *)
| CPostComment (n : Z) (text : pyval)      (* github_manager.post_comment *)
| CCloseIssue (n : Z) (reason : string)    (* github_manager.close_issue *)
| CAddIssue (n : Z) (title body : string)  (* weaviate_manager.add_issue *)
| CNotify (summary : string).              (* discord_manager.send_completion_message *)

Definition is_record_store_call (c : call) : bool :=
  match c with
  | CAddLabel _ _ | CPostComment _ _ | CCloseIssue _ _ => true
  | _ => false
  end.

(** The collaborators.  [classify_severity], [summarize_issue] and
    [find_duplicate] may raise; [human] is the channel call
    [discord_manager.send_triage_request].  The GitHub calls and
    [send_completion_message] catch every exception and return a boolean
    (given by [store_ok] and [notify_ok]); [add_issue] catches every
    exception and returns nothing.  [format_percent] is Python's
    [f"{x:.1%}"] on a float. *)
Record collaborators := mk_collaborators {
  classify_severity : string -> string -> res string;
  summarize_issue : string -> string -> res string;
  find_duplicate : string -> string -> Q -> res (option Z * option Q);
  human : clarification -> res decision_record;
  store_ok : call -> bool;
  notify_ok : bool;
  format_percent : Q -> string
}.

(** The pipeline's effects: the mutable state object and the log of
    external calls, both surviving an exception. *)
Definition world : Type := triage_state * list call.
Definition M (A : Type) : Type := world -> res A * world.

Definition ret {A} (a : A) : M A := fun w => (Ok a, w).
Definition bind {A B} (m : M A) (k : A -> M B) : M B :=
  fun w => match m w with
           | (Ok a, w') => k a w'
           | (Exc e, w') => (Exc e, w')
           end.
Definition raise {A} (e : string) : M A := fun w => (Exc e, w).
(** [try: m except Exception as e: h(e)]. *)
Definition try_except {A} (m : M A) (h : string -> M A) : M A :=
  fun w => match m w with
           | (Ok a, w') => (Ok a, w')
           | (Exc e, w') => h e w'
           end.
Definition get_state : M triage_state := fun w => (Ok (fst w), w).
Definition modify (f : triage_state -> triage_state) : M unit :=
  fun w => (Ok tt, (f (fst w), snd w)).
Definition lift {A} (r : res A) : M A := fun w => (r, w).
Definition perform (c : call) (result : bool) : M bool :=
  fun w => (Ok result, (fst w, snd w ++ [c])).

Global Instance M_ret : MRet M := fun A a => ret a.
Global Instance M_bind : MBind M := fun A B k m => bind m k.

Section Phases.
Variable env : collaborators.

(** [github_manager.add_label] / [post_comment] / [close_issue]. *)
Definition add_label (n : Z) (l : pyval) : M bool :=
  perform (CAddLabel n l) (store_ok env (CAddLabel n l)).
Definition post_comment (n : Z) (t : pyval) : M bool :=
  perform (CPostComment n t) (store_ok env (CPostComment n t)).
Definition close_issue (n : Z) (reason : string) : M bool :=
  perform (CCloseIssue n reason) (store_ok env (CCloseIssue n reason)).
(** [weaviate_manager.add_issue]: returns [None] on every path. *)
Definition add_issue (n : Z) (title body : string) : M unit :=
  perform (CAddIssue n title body) true ;; ret tt.

(** [ai_manager.draft_duplicate_comment]. *)
Definition draft_duplicate_comment (original : Z) (score : Q) : string :=
  String.append "
This issue appears to be a duplicate of #"
  (String.append (pretty original)
  (String.append " (Similarity: "
  (String.append (format_percent env score)
  ").

Please review the original issue and add any additional information there if needed. This issue will be closed to avoid fragmentation.
"))).

(** Phase 1, [_perform_ai_analysis].  The log line
    [state.ai_summary[:100]] cannot raise on a string. *)
Definition perform_ai_analysis : M unit :=
  try_except
    (s ← get_state ;
     sev ← lift (classify_severity env (issue_title s) (issue_body s)) ;
     modify (fun s => set_analysis (Some sev) (ai_summary s) s) ;;
     summ ← lift (summarize_issue env (issue_title s) (issue_body s)) ;
     modify (fun s => set_analysis (severity s) (Some summ) s))
    (fun _ =>
       s ← get_state ;
       modify (set_analysis (Some "Medium") (Some (String.append "Issue: " (issue_title s))))).

(** Python truthiness of an [Optional[int]] and an [Optional[float]]. *)
Definition truthy_int (o : option Z) : bool :=
  match o with Some z => negb (Z.eqb z 0) | None => false end.
Definition truthy_float (o : option Q) : bool :=
  match o with Some q => negb (Qeq_bool q 0) | None => false end.

(** Phase 2, [_perform_duplicate_detection] with [threshold=0.85]. *)
Definition perform_duplicate_detection : M unit :=
  try_except
    (s ← get_state ;
     found ← lift (find_duplicate env (issue_title s) (issue_body s) (85 # 100)) ;
     let '(did, score) := found in
     if truthy_int did && truthy_float score then
       match did, score with
       | Some d, Some q =>
           modify (set_duplicate true (Some q) (Some d)
                     (Some (draft_duplicate_comment d q)))
       | _, _ => ret tt
       end
     else ret tt)
    (fun _ => modify (set_is_duplicate false)).

(** Phase 3, [_request_human_clarification]: fatal on failure. *)
Definition request_human_clarification : M unit :=
  try_except
    (s ← get_state ;
     r ← lift (human env (make_clarification s)) ;
     modify (set_human_decision r))
    (fun e => raise (String.append "Human clarification required but failed: " e)).

(** The [severity_emoji] table (emoji written as their names). *)
Definition severity_emoji (l : pyval) : string :=
  match l with
  | PStr s =>
      if String.eqb s "Critical" then ":red_circle:"
      else if String.eqb s "High" then ":orange_circle:"
      else if String.eqb s "Medium" then ":yellow_circle:"
      else if String.eqb s "Low" then ":green_circle:"
      else if String.eqb s "Info" then ":blue_circle:"
      else ":clipboard:"
  | _ => ":clipboard:"
  end.

(** The [summary_comment] f-string. *)
Definition summary_comment (severity_label summary : pyval) : string :=
  String.concat "" [
    "## "; severity_emoji severity_label; " AI Triage Analysis

**Severity Classification:** "; py_str severity_label; "

**Analysis Summary:**
"; py_str summary; "

**Recommended Actions:**
- Issue has been classified as **"; py_str severity_label; "** priority
- Appropriate severity label has been applied
- Issue details have been recorded in the knowledge base

*This analysis was generated by AI and approved by a human triager.*"].

(** Phase 4, [_execute_decision]. *)
Definition execute_decision : M unit :=
  s ← get_state ;
  match human_decision s with
  | None => raise "AttributeError: 'NoneType' object has no attribute 'get'"
  | Some hd =>
      let decision := rec_decision hd in
      let modified_data := rec_data hd in
      if String.eqb decision "approve" then
        let comment := dict_get modified_data "comment" (opt_str (proposed_comment s)) in
        if is_duplicate s then
          try_except
            (ok ← post_comment (issue_id s) comment ;
             modify (set_action "comment_posted" (PBool ok)) ;;
             ok ← add_label (issue_id s) (PStr "duplicate") ;
             modify (set_action "duplicate_label_added" (PBool ok)) ;;
             ok ← close_issue (issue_id s) "duplicate" ;
             modify (set_action "issue_closed" (PBool ok)))
            (fun e => modify (set_action "error" (PStr e)))
        else
          let severity_label := dict_get modified_data "severity" (opt_str (severity s)) in
          let summary := dict_get modified_data "summary" (opt_str (ai_summary s)) in
          try_except
            (ok ← add_label (issue_id s) severity_label ;
             modify (set_action "severity_label_added" (PBool ok)) ;;
             ok ← post_comment (issue_id s) (PStr (summary_comment severity_label summary)) ;
             modify (set_action "summary_posted" (PBool ok)) ;;
             add_issue (issue_id s) (issue_title s) (issue_body s) ;;
             modify (set_action "added_to_knowledge_base" (PBool true)))
            (fun e => modify (set_action "error" (PStr e)))
      else if String.eqb decision "reject" then
        modify (set_action "rejected" (PBool true))
      else if String.eqb decision "timeout" then
        modify (set_action "timed_out" (PBool true))
      else ret tt
  end.

(** [action_summary] of [_send_completion_notification]: the keys whose
    value is truthy. *)
Definition completion_summary (s : triage_state) : string :=
  let executed := map fst (filter (fun kv => py_truthy (snd kv) = true)
                             (actions_executed s)) in
  String.concat "" ["Issue #"; pretty (issue_id s); " processed: ";
                    String.concat ", " executed].

(** Phase 5, [_send_completion_notification]. *)
Definition send_completion_notification : M unit :=
  try_except
    (s ← get_state ;
     ok ← perform (CNotify (completion_summary s)) (notify_ok env) ;
     modify (set_completion ok))
    (fun _ => ret tt).

(** The five phases in order. *)
Definition phases : M unit :=
  perform_ai_analysis ;;
  perform_duplicate_detection ;;
  request_human_clarification ;;
  execute_decision ;;
  send_completion_notification.

End Phases.

(** The dict returned by [triage_new_issue]. *)
Inductive triage_result :=
| Success (issue_number : Z) (severity : option string) (ai_summary : option string)
    (is_duplicate : bool) (similarity_score : option Q)
    (human_decision : option decision_record) (actions_executed : pydict)
    (completion_notification_sent : bool)
| Failure (issue_number : Z) (error : string).

Definition result_success (r : triage_result) : bool :=
  match r with Success _ _ _ _ _ _ _ _ => true | Failure _ _ => false end.

Definition result_actions (r : triage_result) : option pydict :=
  match r with Success _ _ _ _ _ _ a _ => Some a | Failure _ _ => None end.

(** [SophisticatedTriageAgent.triage_new_issue]: the result and the log of
    external calls made. *)
Definition triage_new_issue (env : collaborators) (d : issue_data)
    : triage_result * list call :=
  match phases env (init_state d, []) with
  | (Ok _, (s, log)) =>
      (Success (issue_id s) (severity s) (ai_summary s) (is_duplicate s)
         (similarity_score s) (human_decision s) (actions_executed s)
         (completion_message_sent s), log)
  | (Exc e, (s, log)) => (Failure (issue_id s) e, log)
  end.

End Pipeline.

(* ------------------------------------------------------------------ *)
(** ** Python string methods used by the duplicate index *)

(** Text is read as a sequence of Latin-1 code points (one [ascii] byte
    per code point), on which Python's [str.lower], [str.isspace],
    [str.split()] and [str.strip()] are given below. *)
Module PyText.

(** [c.isspace()] for code points below 256: [\t \n \v \f \r], the
    separators [\x1c]-[\x1f], the space, [\x85] and [\xa0]. *)
Definition py_isspace (c : ascii) : bool :=
  let n := nat_of_ascii c in
  (Nat.leb 9 n && Nat.leb n 13) || (Nat.leb 28 n && Nat.leb n 32) ||
  Nat.eqb n 133 || Nat.eqb n 160.

(** [c.lower()] for code points below 256: [A]-[Z] and the Latin-1
    capitals [\xc0]-[\xde] other than [\xd7] move up by 32. *)
Definition py_lower_char (c : ascii) : ascii :=
  let n := nat_of_ascii c in
  if (Nat.leb 65 n && Nat.leb n 90) ||
     (Nat.leb 192 n && Nat.leb n 222 && negb (Nat.eqb n 215))
  then ascii_of_nat (n + 32) else c.

(** [s.lower()]. *)
Fixpoint py_lower (s : string) : string :=
  match s with
  | EmptyString => EmptyString
  | String c s' => String (py_lower_char c) (py_lower s')
  end.

Fixpoint str_rev_app (s acc : string) : string :=
  match s with
  | EmptyString => acc
  | String c s' => str_rev_app s' (String c acc)
  end.

Definition str_rev (s : string) : string := str_rev_app s EmptyString.

(** [s.lstrip()]. *)
Fixpoint py_lstrip (s : string) : string :=
  match s with
  | EmptyString => EmptyString
  | String c s' => if py_isspace c then py_lstrip s' else s
  end.

(** [s.strip()]. *)
Definition py_strip (s : string) : string :=
  str_rev (py_lstrip (str_rev (py_lstrip s))).

(** [s.split()]: maximal runs of non-whitespace; [cur] holds the current
    word reversed. *)
Fixpoint split_go (s cur : string) : list string :=
  let flush := match cur with EmptyString => [] | _ => [str_rev cur] end in
  match s with
  | EmptyString => flush
  | String c s' =>
      if py_isspace c then flush ++ split_go s' EmptyString
      else split_go s' (String c cur)
  end.

Definition py_split (s : string) : list string := split_go s EmptyString.

End PyText.

(* ------------------------------------------------------------------ *)
(** ** [WeaviateManager] without a Weaviate client *)

(** With [self.client] unset, [find_duplicate] searches and [add_issue]
    appends to the in-memory list [self._mock_issues]; a missing attribute
    behaves as the empty list on both paths.  Python's float scores are
    exact rationals here. *)
Module Weaviate.
Import PyText.

(** [{'issue_id': ..., 'title': ..., 'body': ...}]. *)
Record stored_issue := mk_stored {
  si_issue_id : Z;
  si_title : string;
  si_body : string
}.

(** [f"{title.lower()} {body.lower()}"]. *)
Definition search_text (title body : string) : string :=
  String.append (py_lower title) (String.append " " (py_lower body)).

(** [set(a.split())], [set(b.split())], and the guarded word-overlap
    ratio [len(a & b) / len(a | b)]. *)
Definition word_overlap (search_words stored_words : list string) : option Q :=
  let a := remove_dups search_words in
  let b := remove_dups stored_words in
  if Nat.ltb 0 (length a) && Nat.ltb 0 (length b) then
    let intersection := length (filter (fun w => w ∈ b) a) in
    let union := length (remove_dups (a ++ b)) in
    Some (Qdiv (inject_Z (Z.of_nat intersection)) (inject_Z (Z.of_nat union)))
  else None.

(** The first loop: the first stored issue whose overlap is at least
    [threshold]. *)
Fixpoint overlap_scan (threshold : Q) (search_words : list string)
    (issues : list stored_issue) : option (Z * Q) :=
  match issues with
  | [] => None
  | si :: rest =>
      match word_overlap search_words
              (py_split (search_text (si_title si) (si_body si))) with
      | Some q => if Qle_bool threshold q then Some (si_issue_id si, q)
                  else overlap_scan threshold search_words rest
      | None => overlap_scan threshold search_words rest
      end
  end.

(** The second loop: the first stored issue with the same stripped,
    lower-cased title. *)
Fixpoint title_scan (title : string) (issues : list stored_issue) : option Z :=
  match issues with
  | [] => None
  | si :: rest =>
      if String.eqb (py_lower (py_strip title)) (py_lower (py_strip (si_title si)))
      then Some (si_issue_id si) else title_scan title rest
  end.

(** [WeaviateManager.find_duplicate] with no client. *)
Definition mock_find_duplicate (issues : list stored_issue) (title body : string)
    (threshold : Q) : option Z * option Q :=
  match overlap_scan threshold (py_split (search_text title body)) issues with
  | Some (i, q) => (Some i, Some q)
  | None =>
      match title_scan title issues with
      | Some i => (Some i, Some (95 # 100))
      | None => (None, None)
      end
  end.

(** [WeaviateManager._fallback_text_similarity]: the first loop only. *)
Definition fallback_text_similarity (issues : list stored_issue) (title body : string)
    (threshold : Q) : option Z * option Q :=
  match overlap_scan threshold (py_split (search_text title body)) issues with
  | Some (i, q) => (Some i, Some q)
  | None => (None, None)
  end.

(** [WeaviateManager.add_issue] with no client. *)
Definition mock_add_issue (issues : list stored_issue) (issue_id : Z)
    (title body : string) : list stored_issue :=
  issues ++ [mk_stored issue_id title body].

End Weaviate.

(* ------------------------------------------------------------------ *)
(** ** [AIManager] of [ai_tools_portia.py] *)

Module AIManager.
Import PyText.

(** The Gemini model: whether [_setup_gemini] configured it, and the text
    of its reply to the severity and summary prompts (both built from the
    title and the body), or the exception raised while producing it. *)
Record gemini := mk_gemini {
  model_configured : bool;
  severity_reply : string -> string -> res string;
  summary_reply : string -> string -> res string
}.

Definition severity_levels : list string :=
  ["Critical"; "High"; "Medium"; "Low"; "Info"].

(** [AIManager.classify_severity]. *)
Definition classify_severity (g : gemini) (title body : string) : string :=
  if negb (model_configured g) then "Medium"
  else match severity_reply g title body with
       | Ok text =>
           let severity := py_strip text in
           if existsb (String.eqb severity) severity_levels then severity
           else "Medium"
       | Exc _ => "Medium"
       end.

(** [AIManager.summarize_issue]. *)
Definition summarize_issue (g : gemini) (title body : string) : string :=
  if negb (model_configured g) then String.append "Issue: " title
  else match summary_reply g title body with
       | Ok text => py_strip text
       | Exc _ => String.append "Issue: " title
       end.

End AIManager.

(* ------------------------------------------------------------------ *)
(** ** The module-level managers wired into the pipeline *)

Module Wiring.
Import Broker Channel Pipeline.

(** [agent.py] with [ai_manager] as analysis provider. *)
Definition with_ai (g : AIManager.gemini) (env : collaborators) : collaborators :=
  mk_collaborators
    (fun t b => Ok (AIManager.classify_severity g t b))
    (fun t b => Ok (AIManager.summarize_issue g t b))
    (find_duplicate env) (human env) (store_ok env) (notify_ok env)
    (format_percent env).

(** [agent.py] with [weaviate_manager] holding no client and the given
    mock issues. *)
Definition with_index (issues : list Weaviate.stored_issue) (env : collaborators)
  : collaborators :=
  mk_collaborators (classify_severity env) (summarize_issue env)
    (fun t b th => Ok (Weaviate.mock_find_duplicate issues t b th))
    (human env) (store_ok env) (notify_ok env) (format_percent env).

(** The mock issues after the [add_issue] calls of a run. *)
Fixpoint index_after (issues : list Weaviate.stored_issue) (log : list call)
  : list Weaviate.stored_issue :=
  match log with
  | [] => issues
  | CAddIssue n t b :: log' => index_after (Weaviate.mock_add_issue issues n t b) log'
  | _ :: log' => index_after issues log'
  end.

(** [DiscordManager.send_completion_message]: [False] without a webhook
    URL; otherwise whether the POST and [raise_for_status] went through. *)
Definition send_completion_message (cenv : channel_env) (post_ok : bool) : bool :=
  if String.eqb (webhook_url cenv) "" then false else post_ok.

(** [agent.py] with [discord_manager] as its channel: the registry [b] at
    the time of the request, and the completion POST outcome. *)
Definition with_channel (cenv : channel_env) (b : broker) (post_ok : bool)
    (env : collaborators) : collaborators :=
  mk_collaborators (classify_severity env) (summarize_issue env) (find_duplicate env)
    (fun c => fst (manager_send_triage_request (cl_issue_number c) cenv b))
    (store_ok env) (send_completion_message cenv post_ok) (format_percent env).

End Wiring.

(* ------------------------------------------------------------------ *)
(** ** [agent.process_webhook] *)

Module Webhook.
Import Pipeline.

(** The webhook dict as [process_webhook] reads it. *)
Record webhook_data := mk_webhook_data {
  wh_action : option string;    (* webhook_data.get('action', '') *)
  wh_issue : option issue_data  (* webhook_data.get('issue', {}) *)
}.

(** The double-quote character. *)
Definition dquote : string := String (ascii_of_nat 34) EmptyString.

Definition empty_issue : issue_data := mk_issue_data None None None None None.

Inductive webhook_result :=
| Skipped (reason : string)                     (* success, skipped, reason *)
| Triaged (r : triage_result) (webhook_action : string).

Definition webhook_success (w : webhook_result) : bool :=
  match w with Skipped _ => true | Triaged r _ => result_success r end.

(** [process_webhook].  Its [except] clause is not reachable:
    [get_agent] builds the agent with a constructor that catches its own
    failures, and [triage_new_issue] returns on every path. *)
Definition process_webhook (env : collaborators) (wd : webhook_data)
  : webhook_result * list call :=
  let action := default "" (wh_action wd) in
  if negb (String.eqb action "opened") then
    (Skipped (String.concat "" ["Only processing "; dquote; "opened"; dquote;
                                 " issues, got: "; action]), [])
  else
    let '(r, log) := triage_new_issue env (default empty_issue (wh_issue wd)) in
    (Triaged r action, log).

End Webhook.

(* ------------------------------------------------------------------ *)
(** ** The Flask endpoint of [webhook_server.py] *)

Module Server.

(** A JSON value as [json.loads] returns it. *)
#[warnings="-register-all"]
Inductive json :=
| JNull
| JBool (b : bool)
| JNum (q : Q)
| JStr (s : string)
| JArr (l : list json)
| JObj (fields : list (string * json)).

(** Key lookup in a decoded object: a repeated key keeps its last value. *)
Fixpoint json_lookup (fields : list (string * json)) (k : string) : option json :=
  match fields with
  | [] => None
  | (k', v) :: rest =>
      match json_lookup rest k with
      | Some v' => Some v'
      | None => if String.eqb k k' then Some v else None
      end
  end.

(** [d.get(k, default)] on a decoded object. *)
Definition json_get (fields : list (string * json)) (k : string) (dflt : json) : json :=
  match json_lookup fields k with Some v => v | None => dflt end.

(** [action != 'opened'] is false only for the string ["opened"]. *)
Definition is_opened (j : json) : bool :=
  match j with JStr s => String.eqb s "opened" | _ => false end.

(** [webhook_stats]. *)
Record stats := mk_stats {
  total_received : nat;
  issues_triaged : nat;
  last_webhook : option string;
  errors : nat
}.

Definition initial_stats : stats := mk_stats 0 0 None 0.

(** The parts of a POST to [/webhook] the handler reads: the raw body and
    the headers [X-Hub-Signature-256] and [X-GitHub-Event] (a missing
    header reads as [""]). *)
Record request := mk_request {
  req_body : string;
  req_signature : string;
  req_event : string
}.

(** [json.loads(payload_body)]: a value, a [JSONDecodeError], or another
    exception (such as a [UnicodeDecodeError] on a body that is not UTF-8),
    which only the outer handler catches. *)
Inductive parse_outcome :=
| Parsed (j : json)
| DecodeError
| OtherError.

Fixpoint is_ascii_str (s : string) : bool :=
  match s with
  | EmptyString => true
  | String c s' => Nat.ltb (nat_of_ascii c) 128 && is_ascii_str s'
  end.

Section Handler.
(** [GITHUB_WEBHOOK_SECRET]. *)
Variable secret : string.
(** [hmac.new(secret, body, hashlib.sha256).hexdigest()]. *)
Variable hexdigest : string -> string -> string.
Variable json_loads : string -> parse_outcome.
(** [asyncio.run(process_webhook(payload))]: the result dict, or the
    exception it raised; [result_success] is the truthiness of
    [result.get('success')], [result_error] is [result.get('error')]. *)
Variable A : Type.
Variable process_webhook : json -> res A.
Variable result_success : A -> bool.
Variable result_error : A -> option string.

(** [verify_webhook_signature]; [hmac.compare_digest] on two [str]
    raises [TypeError] when either holds a non-ASCII character. *)
Definition verify_webhook_signature (payload_body signature_header : string) : res bool :=
  if String.eqb secret "" then Ok true
  else if String.eqb signature_header "" then Ok false
  else
    let expected_signature := String.append "sha256=" (hexdigest secret payload_body) in
    if is_ascii_str expected_signature && is_ascii_str signature_header
    then Ok (String.eqb expected_signature signature_header)
    else Exc "TypeError: comparing strings with non-ASCII characters is not supported".

(** The JSON bodies the handler returns. *)
Inductive body :=
| BError (error : string)
| BMessage (message : string)                      (* f'Ignored event type: ...' *)
| BIgnoredAction (action : json)                   (* f'Ignored action: {action}' *)
| BTriaged (issue_number repository : json) (result : A)
| BFailed (issue_number repository : json) (error : string).

Record response := mk_response {
  status : nat;
  resp_body : body
}.

Definition count_error (st : stats) : stats :=
  mk_stats (total_received st) (issues_triaged st) (last_webhook st) (S (errors st)).

Definition count_triaged (st : stats) : stats :=
  mk_stats (total_received st) (S (issues_triaged st)) (last_webhook st) (errors st).

(** [handle_webhook] at time [now]: the response, the new statistics and
    the payloads handed to [process_webhook]. *)
Definition handle_webhook (now : string) (st : stats) (req : request)
  : response * stats * list json :=
  let st1 := mk_stats (S (total_received st)) (issues_triaged st) (Some now) (errors st) in
  let internal := (mk_response 500 (BError "Internal server error"), count_error st1, []) in
  match verify_webhook_signature (req_body req) (req_signature req) with
  | Exc _ => internal
  | Ok false => (mk_response 401 (BError "Invalid signature"), count_error st1, [])
  | Ok true =>
      match json_loads (req_body req) with
      | OtherError => internal
      | DecodeError => (mk_response 400 (BError "Invalid JSON payload"), count_error st1, [])
      | Parsed payload =>
          if negb (String.eqb (req_event req) "issues") then
            (mk_response 200 (BMessage (String.append "Ignored event type: " (req_event req))),
             st1, [])
          else
            match payload with
            | JObj fields =>
                let action := json_get fields "action" (JStr "unknown") in
                (* the log line calls [issue.get] and [repo.get] *)
                match json_get fields "issue" (JObj []),
                      json_get fields "repository" (JObj []) with
                | JObj issue, JObj repo =>
                    if negb (is_opened action) then
                      (mk_response 200 (BIgnoredAction action), st1, [])
                    else
                      let number := json_get issue "number" JNull in
                      let full_name := json_get repo "full_name" JNull in
                      match process_webhook payload with
                      | Ok result =>
                          if result_success result then
                            (mk_response 200 (BTriaged number full_name result),
                             count_triaged st1, [payload])
                          else
                            (mk_response 500
                               (BFailed number full_name
                                  (match result_error result with
                                   | Some e => e | None => "Unknown error" end)),
                             count_error st1, [payload])
                      | Exc e =>
                          (mk_response 500 (BFailed number full_name e),
                           count_error st1, [payload])
                      end
                | _, _ => internal
                end
            | _ => internal   (* [payload.get] on a non-object *)
            end
      end
  end.

(** A sequence of requests, each with its arrival time. *)
Fixpoint handle_all (st : stats) (reqs : list (string * request)) : stats :=
  match reqs with
  | [] => st
  | (now, req) :: rest =>
      let '(_, st', _) := handle_webhook now st req in handle_all st' rest
  end.

End Handler.

End Server.

(* ================================================================== *)
(** * Properties of the pipeline *)

Module PipelineFacts.
Import Pipeline.

(** A report with no ["number"] field has issue id 0; once approved it is
    registered in the duplicate index under id 0, which the index later
    returns as a match. *)
Definition report_without_number : issue_data :=
  mk_issue_data None (Some "Login broken") (Some "cannot log in") None None.

Definition env_match (did : Z) : collaborators :=
  mk_collaborators (fun _ _ => Ok "High") (fun _ _ => Ok "Login fails")
    (fun _ _ _ => Ok (Some did, Some (95 # 100)))
    (fun _ => Ok approve_record) (fun _ => true) true (fun _ => "95.0%").

(** A numbered report, and collaborators answering every channel call with
    the given record; the duplicate index finds no match. *)
Definition report_7 : issue_data :=
  mk_issue_data (Some 7%Z) (Some "Login broken") (Some "cannot log in") None None.

Definition env_decide (r : decision_record) : collaborators :=
  mk_collaborators (fun _ _ => Ok "High") (fun _ _ => Ok "Login fails")
    (fun _ _ _ => Ok (None, None))
    (fun _ => Ok r) (fun c => match c with CAddLabel _ _ => false | _ => true end)
    true (fun _ => "0.0%").

(** The analysis provider is down. *)
Definition env_provider_down : collaborators :=
  mk_collaborators (fun _ _ => Exc "provider unavailable") (fun _ _ => Exc "provider unavailable")
    (fun _ _ _ => Ok (None, None))
    (fun _ => Ok approve_record) (fun _ => true) true (fun _ => "0.0%").

(** Unfold the monad plumbing and compute. *)
Ltac run_M :=
  unfold mbind, M_bind, mret, M_ret, bind, ret, try_except, get_state, modify,
    lift, perform, raise in *; cbn in *.

Lemma bind_ok {A B} (m : M A) (k : A -> M B) w a w' :
  m w = (Ok a, w') -> bind m k w = k a w'.
Proof. intros H. unfold bind. by rewrite H. Qed.

Lemma bind_exc {A B} (m : M A) (k : A -> M B) w e w' :
  m w = (Exc e, w') -> bind m k w = (Exc e, w').
Proof. intros H. unfold bind. by rewrite H. Qed.

(** Phase 1 never raises, leaves the log alone and writes exactly
    [severity] and [ai_summary], both set. *)
Lemma ai_analysis_shape env s l :
  ∃ sev summ, perform_ai_analysis env (s, l) =
              (Ok tt, (set_analysis (Some sev) (Some summ) s, l)).
Proof.
  unfold perform_ai_analysis. run_M.
  destruct (classify_severity env (issue_title s) (issue_body s)) as [sev|e]; cbn;
    [destruct (summarize_issue env (issue_title s) (issue_body s)) as [summ|e]; cbn|];
    eauto.
Qed.

(** Phase 2 never raises, leaves the log alone and writes only the
    duplicate fields. *)
Lemma set_duplicate_self s :
  set_duplicate (is_duplicate s) (similarity_score s) (duplicate_issue_id s)
    (proposed_comment s) s = s.
Proof. by destruct s. Qed.

Lemma duplicate_detection_shape env s l :
  ∃ dup sc did pc, perform_duplicate_detection env (s, l) =
                   (Ok tt, (set_duplicate dup sc did pc s, l)).
Proof.
  unfold perform_duplicate_detection. run_M.
  destruct (find_duplicate env (issue_title s) (issue_body s) (85 # 100))
    as [[did sc]|e]; run_M; [|by eexists _, _, _, _].
  destruct (truthy_int did && truthy_float sc); run_M;
    [destruct did, sc; run_M; try by eexists _, _, _, _|];
    exists (is_duplicate s), (similarity_score s), (duplicate_issue_id s),
      (proposed_comment s); by rewrite set_duplicate_self.
Qed.

Lemma human_ok env s l r :
  human env (make_clarification s) = Ok r ->
  request_human_clarification env (s, l) = (Ok tt, (set_human_decision r s, l)).
Proof. intros H. unfold request_human_clarification. run_M. by rewrite H. Qed.

Lemma human_exc env s l e :
  human env (make_clarification s) = Exc e ->
  request_human_clarification env (s, l) =
    (Exc (String.append "Human clarification required but failed: " e), (s, l)).
Proof. intros H. unfold request_human_clarification. run_M. by rewrite H. Qed.

Lemma notification_shape env s l :
  send_completion_notification env (s, l) =
    (Ok tt, (set_completion (notify_ok env) s, l ++ [CNotify (completion_summary s)])).
Proof. unfold send_completion_notification. run_M. reflexivity. Qed.

(** After phases 1 and 2 the state still has its identity fields, an
    empty action map and no decision. *)
Lemma phases_split env d :
  ∃ s2, actions_executed s2 = [] ∧ human_decision s2 = None ∧
        issue_id s2 = issue_id (init_state d) ∧
        issue_title s2 = issue_title (init_state d) ∧
        issue_body s2 = issue_body (init_state d) ∧
        phases env (init_state d, []) =
          bind (request_human_clarification env)
            (fun _ => bind (execute_decision env)
               (fun _ => send_completion_notification env)) (s2, []).
Proof.
  destruct (ai_analysis_shape env (init_state d) []) as (sev & summ & H1).
  destruct (duplicate_detection_shape env (set_analysis (Some sev) (Some summ) (init_state d)) [])
    as (dup & sc & did & pc & H2).
  exists (set_duplicate dup sc did pc (set_analysis (Some sev) (Some summ) (init_state d))).
  split_and!; [reflexivity..|].
  unfold phases, mbind, M_bind.
  rewrite (bind_ok _ _ _ _ _ H1), (bind_ok _ _ _ _ _ H2). reflexivity.
Qed.


(** Phase 4 on each kind of decision. *)
Section Execute.
Variables (env : collaborators) (s : triage_state) (l : list call)
  (r : decision_record).
Hypothesis Hhd : human_decision s = Some r.

Lemma execute_reject :
  rec_decision r = "reject" ->
  execute_decision env (s, l) = (Ok tt, (set_action "rejected" (PBool true) s, l)).
Proof. intros Hd. unfold execute_decision. run_M. by rewrite Hhd, Hd. Qed.

Lemma execute_timeout :
  rec_decision r = "timeout" ->
  execute_decision env (s, l) = (Ok tt, (set_action "timed_out" (PBool true) s, l)).
Proof. intros Hd. unfold execute_decision. run_M. by rewrite Hhd, Hd. Qed.

Lemma execute_other :
  rec_decision r ≠ "approve" -> rec_decision r ≠ "reject" ->
  rec_decision r ≠ "timeout" ->
  execute_decision env (s, l) = (Ok tt, (s, l)).
Proof.
  intros H1 H2 H3. unfold execute_decision. run_M. rewrite Hhd.
  apply String.eqb_neq in H1, H2, H3. by rewrite H1, H2, H3.
Qed.

Lemma execute_approve_duplicate :
  rec_decision r = "approve" -> is_duplicate s = true ->
  let n := issue_id s in
  let c := dict_get (rec_data r) "comment" (opt_str (proposed_comment s)) in
  execute_decision env (s, l) =
    (Ok tt,
     (set_action "issue_closed" (PBool (store_ok env (CCloseIssue n "duplicate")))
        (set_action "duplicate_label_added"
           (PBool (store_ok env (CAddLabel n (PStr "duplicate"))))
           (set_action "comment_posted" (PBool (store_ok env (CPostComment n c))) s)),
      l ++ [CPostComment n c; CAddLabel n (PStr "duplicate"); CCloseIssue n "duplicate"])).
Proof.
  intros Hd Hdup. unfold execute_decision, add_issue. run_M. rewrite Hhd, Hd, Hdup. cbn.
  rewrite <- !List.app_assoc. reflexivity.
Qed.

Lemma execute_approve_new :
  rec_decision r = "approve" -> is_duplicate s = false ->
  let n := issue_id s in
  let lab := dict_get (rec_data r) "severity" (opt_str (severity s)) in
  let summ := dict_get (rec_data r) "summary" (opt_str (ai_summary s)) in
  let t := PStr (summary_comment lab summ) in
  execute_decision env (s, l) =
    (Ok tt,
     (set_action "added_to_knowledge_base" (PBool true)
        (set_action "summary_posted" (PBool (store_ok env (CPostComment n t)))
           (set_action "severity_label_added" (PBool (store_ok env (CAddLabel n lab))) s)),
      l ++ [CAddLabel n lab; CPostComment n t; CAddIssue n (issue_title s) (issue_body s)])).
Proof.
  intros Hd Hdup. unfold execute_decision, add_issue. run_M. rewrite Hhd, Hd, Hdup. cbn.
  rewrite <- !List.app_assoc. reflexivity.
Qed.

End Execute.

(** The whole run, split at the human decision. *)
Lemma triage_decompose env d :
  ∃ s2, actions_executed s2 = [] ∧ human_decision s2 = None ∧
    issue_id s2 = issue_id (init_state d) ∧
    issue_title s2 = issue_title (init_state d) ∧
    issue_body s2 = issue_body (init_state d) ∧
    triage_new_issue env d =
      match human env (make_clarification s2) with
      | Exc e =>
          (Failure (issue_id s2)
             (String.append "Human clarification required but failed: " e), [])
      | Ok r =>
          match execute_decision env (set_human_decision r s2, []) with
          | (Exc e, (s4, l4)) => (Failure (issue_id s4) e, l4)
          | (Ok _, (s4, l4)) =>
              (Success (issue_id s4) (severity s4) (ai_summary s4) (is_duplicate s4)
                 (similarity_score s4) (human_decision s4) (actions_executed s4)
                 (notify_ok env), l4 ++ [CNotify (completion_summary s4)])
          end
      end.
Proof.
  destruct (phases_split env d) as (s2 & Ha & Hh & Hi & Ht & Hb & Hp).
  exists s2. split_and!; [done..|].
  unfold triage_new_issue. rewrite Hp.
  destruct (human env (make_clarification s2)) as [r|e] eqn:Hhum.
  - rewrite (bind_ok _ _ _ _ _ (human_ok env s2 [] r Hhum)).
    destruct (execute_decision env (set_human_decision r s2, [])) as [[u|e] [s4 l4]] eqn:Hex.
    + rewrite (bind_ok _ _ _ _ _ Hex), notification_shape. reflexivity.
    + rewrite (bind_exc _ _ _ _ _ Hex). reflexivity.
  - rewrite (bind_exc _ _ _ _ _ (human_exc env s2 [] e Hhum)). reflexivity.
Qed.


(** Phase 4 never raises and keeps the decision, the duplicate flag and
    the issue id. *)
Lemma execute_frame env s l r :
  human_decision s = Some r ->
  ∃ s' l', execute_decision env (s, l) = (Ok tt, (s', l')) ∧
    human_decision s' = Some r ∧ is_duplicate s' = is_duplicate s ∧
    issue_id s' = issue_id s.
Proof.
  intros Hhd.
  destruct (decide (rec_decision r = "approve")) as [Ha|Ha].
  { destruct (is_duplicate s) eqn:Hd.
    - rewrite (execute_approve_duplicate env s l r Hhd Ha Hd). eauto 10.
    - rewrite (execute_approve_new env s l r Hhd Ha Hd). eauto 10. }
  destruct (decide (rec_decision r = "reject")) as [Hr|Hr].
  { rewrite (execute_reject env s l r Hhd Hr). eauto 10. }
  destruct (decide (rec_decision r = "timeout")) as [Ht|Ht].
  { rewrite (execute_timeout env s l r Hhd Ht). eauto 10. }
  rewrite (execute_other env s l r Hhd Ha Hr Ht). eauto 10.
Qed.

(** ** C5 *)

(** C5: when the triage ends with a duplicate state and an [approve]
    decision, the action map has exactly the keys [comment_posted],
    [duplicate_label_added] and [issue_closed], in that order, each holding
    the boolean returned by its own record-store call; all three calls are
    made, in that order, whatever each of them returns. *)
Theorem duplicate_approve_actions env d n sev summ sc hd acts sent log :
  triage_new_issue env d = (Success n sev summ true sc (Some hd) acts sent, log) ->
  rec_decision hd = "approve" ->
  ∃ c msg,
    acts = [("comment_posted", PBool (store_ok env (CPostComment n c)));
            ("duplicate_label_added", PBool (store_ok env (CAddLabel n (PStr "duplicate"))));
            ("issue_closed", PBool (store_ok env (CCloseIssue n "duplicate")))] ∧
    log = [CPostComment n c; CAddLabel n (PStr "duplicate");
           CCloseIssue n "duplicate"; CNotify msg].
Proof.
  intros H Happ.
  destruct (triage_decompose env d) as (s2 & Ha & Hh & Hi & Ht & Hb & Hdec).
  rewrite Hdec in H.
  destruct (human env (make_clarification s2)) as [r|e]; [|discriminate].
  destruct (execute_frame env (set_human_decision r s2) [] r eq_refl)
    as (s4 & l4 & Hex & Hh4 & Hd4 & Hi4).
  rewrite Hex in H. injection H as Hn _ _ Hdup _ Hhd Hacts _ Hlog.
  rewrite Hh4 in Hhd. injection Hhd as Hrh. subst hd.
  cbn in Hd4. rewrite Hdup in Hd4. symmetry in Hd4.
  rewrite (execute_approve_duplicate env (set_human_decision r s2) [] r eq_refl Happ Hd4) in Hex.
  injection Hex as <- <-. subst. cbn. rewrite Ha. cbn. eauto.
Qed.

Lemma duplicate_approve_actions_witness :
  ∃ n sev summ sc acts sent log,
    triage_new_issue (env_match 42) report_7 =
      (Success n sev summ true sc (Some approve_record) acts sent, log) ∧
    ∃ c msg,
      acts = [("comment_posted", PBool (store_ok (env_match 42) (CPostComment n c)));
              ("duplicate_label_added", PBool (store_ok (env_match 42) (CAddLabel n (PStr "duplicate"))));
              ("issue_closed", PBool (store_ok (env_match 42) (CCloseIssue n "duplicate")))] ∧
      log = [CPostComment n c; CAddLabel n (PStr "duplicate");
             CCloseIssue n "duplicate"; CNotify msg].
Proof.
  destruct (triage_new_issue (env_match 42) report_7) as [out log] eqn:E.
  pose proof E as E'. vm_compute in E'. injection E' as <- <-.
  do 7 eexists. split; [exact E|].
  eapply duplicate_approve_actions; [exact E|reflexivity].
Defined.

(** ** C6 *)

(** C6: when the triage ends with a non-duplicate state and an [approve]
    decision, the action map has exactly the keys [severity_label_added],
    [summary_posted] and [added_to_knowledge_base], the first two holding
    the booleans returned by their own record-store calls; the report's
    title and body are registered with the duplicate index. *)
Theorem new_issue_approve_actions env d n sev summ sc hd acts sent log :
  triage_new_issue env d = (Success n sev summ false sc (Some hd) acts sent, log) ->
  rec_decision hd = "approve" ->
  ∃ lab t msg,
    acts = [("severity_label_added", PBool (store_ok env (CAddLabel n lab)));
            ("summary_posted", PBool (store_ok env (CPostComment n t)));
            ("added_to_knowledge_base", PBool true)] ∧
    log = [CAddLabel n lab; CPostComment n t;
           CAddIssue n (issue_title (init_state d)) (issue_body (init_state d));
           CNotify msg].
Proof.
  intros H Happ.
  destruct (triage_decompose env d) as (s2 & Ha & Hh & Hi & Ht & Hb & Hdec).
  rewrite Hdec in H.
  destruct (human env (make_clarification s2)) as [r|e]; [|discriminate].
  destruct (execute_frame env (set_human_decision r s2) [] r eq_refl)
    as (s4 & l4 & Hex & Hh4 & Hd4 & Hi4).
  rewrite Hex in H. injection H as Hn _ _ Hdup _ Hhd Hacts _ Hlog.
  rewrite Hh4 in Hhd. injection Hhd as Hrh. subst hd.
  cbn in Hd4. rewrite Hdup in Hd4. symmetry in Hd4.
  rewrite (execute_approve_new env (set_human_decision r s2) [] r eq_refl Happ Hd4) in Hex.
  injection Hex as <- <-. subst. cbn. rewrite Ha, Ht, Hb. cbn. eauto.
Qed.

Lemma new_issue_approve_actions_witness :
  ∃ n sev summ sc acts sent log,
    triage_new_issue (env_decide approve_record) report_7 =
      (Success n sev summ false sc (Some approve_record) acts sent, log) ∧
    ∃ lab t msg,
      acts = [("severity_label_added", PBool (store_ok (env_decide approve_record) (CAddLabel n lab)));
              ("summary_posted", PBool (store_ok (env_decide approve_record) (CPostComment n t)));
              ("added_to_knowledge_base", PBool true)] ∧
      log = [CAddLabel n lab; CPostComment n t;
             CAddIssue n (issue_title (init_state report_7)) (issue_body (init_state report_7));
             CNotify msg].
Proof.
  destruct (triage_new_issue (env_decide approve_record) report_7) as [out log] eqn:E.
  pose proof E as E'. vm_compute in E'. injection E' as <- <-.
  do 7 eexists. split; [exact E|].
  eapply new_issue_approve_actions; [exact E|reflexivity].
Defined.

(** ** C7 *)

(** C7: when the human decision is [reject] (resp. [timeout]) the triage
    succeeds with the action map exactly [{rejected: True}]
    (resp. [{timed_out: True}]) and makes no record-store call. *)
Theorem reject_timeout_no_store_calls env d kind key :
  (kind = "reject" ∧ key = "rejected") ∨ (kind = "timeout" ∧ key = "timed_out") ->
  (∀ c, ∃ r, human env c = Ok r ∧ rec_decision r = kind) ->
  result_actions (fst (triage_new_issue env d)) = Some [(key, PBool true)] ∧
  Forall (fun c => is_record_store_call c = false) (snd (triage_new_issue env d)).
Proof.
  intros Hk Hhum.
  destruct (triage_decompose env d) as (s2 & Ha & Hh & Hi & Ht & Hb & Hdec).
  rewrite Hdec.
  destruct (Hhum (make_clarification s2)) as (r & Hr & Hkind). rewrite Hr.
  destruct Hk as [[-> ->]|[-> ->]].
  - rewrite (execute_reject env (set_human_decision r s2) [] r eq_refl Hkind). cbn. rewrite Ha.
    split; [reflexivity | repeat constructor].
  - rewrite (execute_timeout env (set_human_decision r s2) [] r eq_refl Hkind). cbn. rewrite Ha.
    split; [reflexivity | repeat constructor].
Qed.

Lemma reject_timeout_no_store_calls_witness :
  (∀ c, ∃ r, human (env_decide reject_record) c = Ok r ∧ rec_decision r = "reject") ∧
  result_actions (fst (triage_new_issue (env_decide reject_record) report_7)) =
    Some [("rejected", PBool true)] ∧
  Forall (fun c => is_record_store_call c = false)
    (snd (triage_new_issue (env_decide reject_record) report_7)).
Proof.
  assert (Hh : ∀ c, ∃ r, human (env_decide reject_record) c = Ok r ∧ rec_decision r = "reject")
    by (intros c; exists reject_record; split; reflexivity).
  split; [exact Hh|].
  apply (reject_timeout_no_store_calls (env_decide reject_record) report_7 "reject" "rejected");
    [left; split; reflexivity|exact Hh].
Defined.

(** ** C10 *)

(** C10: a decision whose kind is none of [approve], [reject], [timeout]
    (such as the ["modify"] kind of [discord_tools_portia.ModifyModal])
    makes the triage succeed with an empty action map and no record-store
    call. *)
Theorem unknown_decision_empty_actions env d kind :
  kind ≠ "approve" -> kind ≠ "reject" -> kind ≠ "timeout" ->
  (∀ c, ∃ r, human env c = Ok r ∧ rec_decision r = kind) ->
  result_success (fst (triage_new_issue env d)) = true ∧
  result_actions (fst (triage_new_issue env d)) = Some [] ∧
  Forall (fun c => is_record_store_call c = false) (snd (triage_new_issue env d)).
Proof.
  intros H1 H2 H3 Hhum.
  destruct (triage_decompose env d) as (s2 & Ha & Hh & Hi & Ht & Hb & Hdec).
  rewrite Hdec.
  destruct (Hhum (make_clarification s2)) as (r & Hr & <-). rewrite Hr.
  rewrite (execute_other env (set_human_decision r s2) [] r eq_refl H1 H2 H3). cbn. rewrite Ha.
  split_and!; [reflexivity..| repeat constructor].
Qed.

Lemma unknown_decision_empty_actions_witness :
  let r := tools_modify_record "Low" "Fix the login form" false in
  rec_decision r = "modify" ∧
  result_success (fst (triage_new_issue (env_decide r) report_7)) = true ∧
  result_actions (fst (triage_new_issue (env_decide r) report_7)) = Some [] ∧
  Forall (fun c => is_record_store_call c = false) (snd (triage_new_issue (env_decide r) report_7)).
Proof.
  intros r. split; [reflexivity|].
  apply (unknown_decision_empty_actions (env_decide r) report_7 "modify");
    [apply String.eqb_neq; reflexivity..|].
  intros c. exists r. split; reflexivity.
Defined.

(** ** C9 *)

(** C9: if the analysis provider raises while classifying, or while
    summarising after a successful classification, phase 1 returns
    normally with severity ["Medium"] and summary ["Issue: " ++ title];
    on every run of phase 1 both fields end up set. *)
Theorem analysis_failure_fallback env s l :
  ((∃ e, classify_severity env (issue_title s) (issue_body s) = Exc e) ∨
   (∃ sev e, classify_severity env (issue_title s) (issue_body s) = Ok sev ∧
             summarize_issue env (issue_title s) (issue_body s) = Exc e) ->
   perform_ai_analysis env (s, l) =
     (Ok tt, (set_analysis (Some "Medium")
                (Some (String.append "Issue: " (issue_title s))) s, l))) ∧
  ∃ sev summ, perform_ai_analysis env (s, l) =
              (Ok tt, (set_analysis (Some sev) (Some summ) s, l)).
Proof.
  split.
  - intros [[e He]|(sev & e & Hc & Hs)]; unfold perform_ai_analysis; run_M.
    + by rewrite He.
    + by rewrite Hc, Hs.
  - unfold perform_ai_analysis. run_M.
    destruct (classify_severity env (issue_title s) (issue_body s)) as [sev|e]; run_M;
      [destruct (summarize_issue env (issue_title s) (issue_body s)) as [summ|e]; run_M|];
      eauto.
Qed.

Lemma analysis_failure_fallback_witness :
  let s := init_state report_7 in
  classify_severity env_provider_down (issue_title s) (issue_body s) = Exc "provider unavailable" ∧
  perform_ai_analysis env_provider_down (s, []) =
    (Ok tt, (set_analysis (Some "Medium") (Some "Issue: Login broken") s, [])).
Proof.
  intros s. split; [reflexivity|].
  apply (proj1 (analysis_failure_fallback env_provider_down s [])).
  left. exists "provider unavailable". reflexivity.
Defined.

(** ** C8 *)

(** Phase 2 on a match with a non-zero identifier and a non-zero score. *)
Lemma duplicate_detection_match env s l did q :
  find_duplicate env (issue_title s) (issue_body s) (85 # 100) = Ok (Some did, Some q) ->
  did ≠ 0%Z -> ¬ (q == 0)%Q ->
  perform_duplicate_detection env (s, l) =
    (Ok tt, (set_duplicate true (Some q) (Some did)
               (Some (draft_duplicate_comment env did q)) s, l)).
Proof.
  intros Hf Hd Hq. unfold perform_duplicate_detection. run_M. rewrite Hf. cbn.
  apply Z.eqb_neq in Hd. rewrite Hd.
  destruct (Qeq_bool q 0) eqn:Hq'; [apply Qeq_bool_iff in Hq'; contradiction|].
  reflexivity.
Qed.

(** From a fresh state, phase 2 sets a similarity score exactly when it
    sets the duplicate flag. *)
Lemma duplicate_detection_score_iff env s l :
  is_duplicate s = false -> similarity_score s = None ->
  ∃ s', perform_duplicate_detection env (s, l) = (Ok tt, (s', l)) ∧
        (is_duplicate s' = true <-> ∃ q, similarity_score s' = Some q).
Proof.
  intros Hd Hs. unfold perform_duplicate_detection. run_M.
  destruct (find_duplicate env (issue_title s) (issue_body s) (85 # 100))
    as [[did sc]|e]; run_M.
  - destruct (truthy_int did && truthy_float sc); run_M.
    + destruct did, sc; run_M; eexists; (split; [reflexivity|]); cbn;
        rewrite ?Hd, ?Hs; split; intros H; destruct_and?; eauto; naive_solver.
    + eexists; split; [reflexivity|]. rewrite Hd, Hs. naive_solver.
  - eexists; split; [reflexivity|]. cbn. rewrite Hs. naive_solver.
Qed.

(** C8 (divergence): the index returns match id 0 with score 0.95, above
    the 0.85 threshold, yet [if duplicate_id and similarity_score] treats
    id 0 as no match: the report is not flagged as a duplicate and no score
    is kept.  With id 42 the same match is flagged. *)
Theorem duplicate_id_zero_dropped :
  let s0 := init_state report_without_number in
  perform_duplicate_detection (env_match 0) (s0, []) = (Ok tt, (s0, [])) ∧
  is_duplicate s0 = false ∧ similarity_score s0 = None ∧
  is_duplicate (fst (snd (perform_duplicate_detection (env_match 42) (s0, [])))) = true.
Proof. vm_compute. split_and!; reflexivity. Qed.

(** ** C1 *)

(** A failing channel call makes the whole triage fail, before any
    external call. *)
Lemma human_failure_fatal env d :
  (∀ c, ∃ e, human env c = Exc e) ->
  result_success (fst (triage_new_issue env d)) = false ∧
  snd (triage_new_issue env d) = [].
Proof.
  intros Hh.
  destruct (triage_decompose env d) as (s2 & _ & _ & _ & _ & _ & Hdec).
  rewrite Hdec. destruct (Hh (make_clarification s2)) as [e ->]. done.
Qed.

End PipelineFacts.

Module ChannelFacts.
Import Broker Channel Pipeline.


(** The triage pipeline wired to [DiscordManager.send_triage_request]. *)
Definition env_with_channel (cenv : channel_env) : collaborators :=
  mk_collaborators (fun _ _ => Ok "High") (fun _ _ => Ok "Login fails")
    (fun _ _ _ => Ok (None, None))
    (fun c => fst (manager_send_triage_request (cl_issue_number c) cenv empty_broker))
    (fun _ => true) true (fun _ => "0.0%").

(** No webhook URL, no bot, no channel. *)
Definition unconfigured_channel : channel_env :=
  mk_channel_env "" false OtherRuntimeError false false [] false.

Definition report_101 : issue_data :=
  mk_issue_data (Some 101%Z) (Some "Login broken") (Some "cannot log in") None None.

(** C1 (divergence): with the webhook URL unconfigured the channel call
    returns an approval without publishing anything, and the triage
    succeeds and labels, comments and registers the issue. *)
Theorem unconfigured_channel_auto_approves :
  let out := triage_new_issue (env_with_channel unconfigured_channel) report_101 in
  result_success (fst out) = true ∧
  (match fst out with
   | Success _ _ _ _ _ hd _ _ => hd = Some approve_record
   | Failure _ _ => False end) ∧
  filter (fun c => is_record_store_call c = true) (snd out) =
    [CAddLabel 101 (PStr "High");
     CPostComment 101 (PStr (summary_comment (PStr "High") (PStr "Login fails")))].
Proof. vm_compute. split_and!; reflexivity. Qed.

End ChannelFacts.

(* ================================================================== *)
(** * Properties of the decision broker *)

Module BrokerFacts.
Import Broker.

(** Two UI handlers answer issue 5 during the second sleep: an approval,
    then a rejection. *)
Definition sched_two_answers : list (list event) :=
  [[]; [EvResolve (decision_key 5) approve_record; EvResolve (decision_key 5) reject_record]].

(** Every registered future id is below the allocation counter. *)
Definition wf_broker (b : broker) : Prop :=
  ∀ k f, pending b !! k = Some f -> f < next_future b.

Lemma wf_empty : wf_broker empty_broker.
Proof. intros k f H. cbn in H. by rewrite lookup_empty in H. Qed.

Lemma wf_apply_event b ev : wf_broker b -> wf_broker (apply_event b ev).
Proof.
  intros Hwf k f. destruct ev as [k' r|k'|k']; cbn.
  - unfold resolve. repeat case_match; cbn; apply Hwf.
  - destruct (decide (k = k')) as [->|Hne].
    + rewrite lookup_insert_eq. intros [= <-]. lia.
    + rewrite lookup_insert_ne by done. intros H. specialize (Hwf _ _ H). lia.
  - destruct (decide (k = k')) as [->|Hne].
    + by rewrite lookup_delete_eq.
    + rewrite lookup_delete_ne by done. apply Hwf.
Qed.

(** The first [EvResolve] for key [k] in a batch of events. *)
Fixpoint first_resolve (k : string) (evs : list event) : option decision_record :=
  match evs with
  | [] => None
  | EvResolve k' r :: evs' => if String.eqb k k' then Some r else first_resolve k evs'
  | _ :: evs' => first_resolve k evs'
  end.

(** Events of another pipeline registering or removing key [k]. *)
Definition touches (k : string) (ev : event) : bool :=
  match ev with
  | EvResolve _ _ => false
  | EvRegister k' | EvRemove k' => String.eqb k k'
  end.

Section Slot.
Variable k : string.

(** The key [k] owns the future [f], in state [o], and no other key
    shares it. *)
Definition slot_inv (f : nat) (o : option decision_record) (b : broker) : Prop :=
  pending b !! k = Some f ∧ futures b !! f = Some o ∧
  (∀ k', k' ≠ k -> pending b !! k' ≠ Some f) ∧ wf_broker b.

(** One event: the slot keeps its future; an empty slot takes the record
    of a resolve for [k]; a resolved slot never changes. *)
Lemma slot_inv_event f o b ev :
  slot_inv f o b -> touches k ev = false ->
  slot_inv f (match o, ev with
              | None, EvResolve k' r => if String.eqb k k' then Some r else None
              | _, _ => o
              end) (apply_event b ev).
Proof.
  intros (Hp & Hf & Ha & Hwf) Ht.
  pose proof (wf_apply_event b ev Hwf) as Hwf'.
  destruct ev as [k' r|k'|k']; cbn in Ht |- *.
  - unfold resolve. destruct (String.eqb_spec k k') as [<-|Hne].
    + rewrite Hp, Hf. destruct o as [r0|].
      * done.
      * replace (String.eqb k k) with true by (symmetry; apply String.eqb_refl).
        split_and!; cbn; [done|by rewrite lookup_insert_eq|done|].
        intros k'' f'' H. apply (Hwf _ _ H).
    + assert (Hne' := Hne). apply String.eqb_neq in Hne'.
      replace (match o with | Some _ => o | None => None end) with o by (by destruct o).
      destruct (pending b !! k') as [f'|] eqn:Hk'; [|done].
      assert (f' ≠ f) by (intros ->; apply (Ha k'); [congruence|done]).
      destruct (futures b !! f') as [[]|]; try done.
      split_and!; cbn; try done; try (by rewrite lookup_insert_ne).
  - apply String.eqb_neq in Ht.
    assert (Hlt : f < next_future b) by (apply (Hwf k); done).
    split_and!; cbn.
    + by rewrite lookup_insert_ne.
    + rewrite lookup_insert_ne by lia. destruct o; done.
    + intros k'' Hne. destruct (decide (k'' = k')) as [->|Hne'].
      * rewrite lookup_insert_eq. intros [=]. lia.
      * rewrite lookup_insert_ne by done. by apply Ha.
    + destruct o; apply Hwf'.
  - apply String.eqb_neq in Ht.
    split_and!; cbn.
    + by rewrite lookup_delete_ne.
    + destruct o; done.
    + intros k'' Hne. destruct (decide (k'' = k')) as [->|Hne'].
      * by rewrite lookup_delete_eq.
      * rewrite lookup_delete_ne by done. by apply Ha.
    + destruct o; apply Hwf'.
Qed.

Lemma slot_inv_events f o b evs :
  slot_inv f o b -> Forall (fun ev => touches k ev = false) evs ->
  slot_inv f (match o with Some r => Some r | None => first_resolve k evs end)
    (apply_events evs b).
Proof.
  unfold apply_events.
  revert o b. induction evs as [|ev evs IH]; intros o b Hi Hall; cbn.
  - by destruct o.
  - inversion Hall as [|? ? Ht Hrest]; subst.
    pose proof (slot_inv_event f o b ev Hi Ht) as Hi'.
    specialize (IH _ _ Hi' Hrest).
    destruct o; [done|].
    destruct ev as [k' r|k'|k']; cbn in *; try done.
    destruct (String.eqb k k'); done.
Qed.

(** [register] gives [k] a fresh, empty slot of its own. *)
Lemma register_slot b :
  wf_broker b -> slot_inv (next_future b) None (register k b).
Proof.
  intros Hwf. split_and!; cbn.
  - by rewrite lookup_insert_eq.
  - by rewrite lookup_insert_eq.
  - intros k' Hne. rewrite lookup_insert_ne by done.
    intros H. specialize (Hwf _ _ H). lia.
  - apply (wf_apply_event b (EvRegister k) Hwf).
Qed.

(** The key [k] is either absent or owns an empty slot. *)
Definition open_inv (b : broker) : Prop :=
  wf_broker b ∧ (pending b !! k = None ∨ ∃ f, slot_inv f None b).

Lemma open_inv_event b ev :
  open_inv b -> (∀ r, ev ≠ EvResolve k r) -> open_inv (apply_event b ev).
Proof.
  intros [Hwf Ho] Hev.
  split; [by apply wf_apply_event|].
  destruct (touches k ev) eqn:Ht.
  - destruct ev as [k' r|k'|k']; cbn in Ht; [done| |];
      apply String.eqb_eq in Ht as <-.
    + right. exists (next_future b). by apply register_slot.
    + left. cbn. by rewrite lookup_delete_eq.
  - destruct Ho as [Hn|[f Hi]].
    + left. destruct ev as [k' r|k'|k']; cbn in Ht |- *.
      * unfold resolve. repeat case_match; done.
      * apply String.eqb_neq in Ht. by rewrite lookup_insert_ne.
      * apply String.eqb_neq in Ht. by rewrite lookup_delete_ne.
    + right. exists f.
      pose proof (slot_inv_event f None b ev Hi Ht) as Hi'.
      destruct ev as [k' r|k'|k']; try done.
      destruct (String.eqb_spec k k') as [<-|Hne]; [by destruct (Hev r)|done].
Qed.

Lemma open_inv_events b evs :
  open_inv b -> first_resolve k evs = None -> open_inv (apply_events evs b).
Proof.
  unfold apply_events. revert b.
  induction evs as [|ev evs IH]; intros b Hi Hf; cbn; [done|].
  apply IH.
  - apply open_inv_event; [done|]. intros r ->. cbn in Hf.
    by rewrite String.eqb_refl in Hf.
  - destruct ev as [k' r|k'|k']; cbn in Hf; try done.
    by destruct (String.eqb k k').
Qed.

Section Loop.
Variable sched : list (list event).

(** A loop entered on an open key with no resolve for [k] until the
    deadline ends with the timeout record. *)
Lemma wait_loop_timeout n e b :
  open_inv b ->
  (∀ e', e ≤ e' -> e' ≤ timeout_duration -> first_resolve k (nth e' sched []) = None) ->
  fst (wait_loop n e k sched b) = timeout_record.
Proof.
  revert e b. induction n as [|n IH]; intros e b Hi Hnone; cbn -[timeout_duration Nat.ltb];
  (destruct Hi as [Hwf [Hn|[f (Hp & Hf & Ha & _)]]];
    [by rewrite Hn|rewrite Hp, Hf];
   destruct (Nat.ltb timeout_duration e) eqn:Hlt; [done|];
   apply Nat.ltb_ge in Hlt).
  - done.
  - apply IH.
    + apply open_inv_events; [|apply Hnone; lia].
      split; [done|]. right. exists f. by split_and!.
    + intros e' He' He''. apply Hnone; lia.
Qed.

(** A slot already resolved is returned as it is. *)
Lemma wait_loop_resolved n e b f r :
  slot_inv f (Some r) b -> fst (wait_loop n e k sched b) = r.
Proof.
  intros (Hp & Hf & _ & _). destruct n; cbn -[timeout_duration Nat.ltb]; by rewrite Hp, Hf.
Qed.

(** The loop returns the record of the first resolve for [k]. *)
Lemma wait_loop_first r e0 n e b f :
  slot_inv f None b ->
  (∀ e', Forall (fun ev => touches k ev = false) (nth e' sched [])) ->
  (∀ e', e ≤ e' -> e' < e0 -> first_resolve k (nth e' sched []) = None) ->
  first_resolve k (nth e0 sched []) = Some r ->
  e ≤ e0 -> e0 ≤ timeout_duration -> e0 - e < n ->
  fst (wait_loop n e k sched b) = r.
Proof.
  revert e b. induction n as [|n IH]; intros e b Hi Hnt Hnone Hr He He0 Hn; [lia|].
  pose proof Hi as (Hp & Hf & _ & _). cbn -[timeout_duration Nat.ltb]. rewrite Hp, Hf.
  replace (Nat.ltb timeout_duration e) with false by (symmetry; apply Nat.ltb_ge; lia).
  pose proof (slot_inv_events f None b _ Hi (Hnt e)) as Hi'.
  destruct (decide (e = e0)) as [->|Hne].
  - rewrite Hr in Hi'. by eapply wait_loop_resolved.
  - rewrite Hnone in Hi' by lia.
    apply (IH (S e)); try done; [intros; apply Hnone; lia|lia..].
Qed.

End Loop.
End Slot.

(** ** C2 *)

(** C2: a resolve on a key whose slot is already resolved changes
    nothing; and a triage request whose key is resolved for the first time
    during sleep [e0] (within the deadline) returns that first record,
    whatever other resolves for the key arrive afterwards. *)
Theorem first_resolution_wins n sched b r e0 :
  wf_broker b ->
  (∀ e, Forall (fun ev => touches (decision_key n) ev = false) (nth e sched [])) ->
  (∀ e, e < e0 -> first_resolve (decision_key n) (nth e sched []) = None) ->
  first_resolve (decision_key n) (nth e0 sched []) = Some r ->
  e0 ≤ timeout_duration ->
  (∀ k r' b' f r0, pending b' !! k = Some f -> futures b' !! f = Some (Some r0) ->
     resolve k r' b' = b') ∧
  fst (bot_send_triage_request n true true sched b) = Ok r.
Proof.
  intros Hwf Hnt Hnone Hr He0. split.
  - intros k r' b' f r0 Hp Hf. unfold resolve. by rewrite Hp, Hf.
  - unfold bot_send_triage_request. cbn -[wait_loop timeout_duration].
    destruct (wait_loop (S timeout_duration) 0 (decision_key n) sched
                (register (decision_key n) b)) as [r' b'] eqn:Hw.
    cbn. f_equal.
    change r' with (fst (r', b')). rewrite <- Hw.
    eapply wait_loop_first; [by apply register_slot|done| |done|lia|done|].
    + intros e' _ ?. by apply Hnone.
    + unfold timeout_duration in *. lia.
Qed.

Lemma first_resolution_wins_witness :
  first_resolve (decision_key 5) (nth 1 sched_two_answers []) = Some approve_record ∧
  fst (bot_send_triage_request 5 true true sched_two_answers empty_broker) = Ok approve_record.
Proof.
  split; [vm_compute; reflexivity|].
  apply (first_resolution_wins 5 sched_two_answers empty_broker approve_record 1).
  - exact wf_empty.
  - intros e. destruct e as [|[|e]]; [constructor|repeat constructor|destruct e; constructor].
  - intros e He. replace e with 0 by lia. reflexivity.
  - vm_compute. reflexivity.
  - apply Nat.leb_le. vm_compute. reflexivity.
Defined.

(** ** C3 *)

(** C3 (counterexample): registering key ["issue_7"] a second time does not
    fail; it points the key at a new slot (future 1) in place of the first
    registration's slot (future 0). *)
Theorem second_registration_replaces :
  let k := decision_key 7 in
  let b1 := register k empty_broker in
  pending b1 !! k = Some 0 ∧ pending (register k b1) !! k = Some 1.
Proof. vm_compute. split; reflexivity. Qed.

(** A future is owned by at most one key. *)
Definition owners_unique (b : broker) : Prop :=
  ∀ k1 k2 f, pending b !! k1 = Some f -> pending b !! k2 = Some f -> k1 = k2.

Lemma resolve_pending k r b : pending (resolve k r b) = pending b.
Proof. unfold resolve. by repeat case_match. Qed.

Lemma owners_unique_event b ev :
  wf_broker b -> owners_unique b -> owners_unique (apply_event b ev).
Proof.
  intros Hwf Hu k1 k2 f. destruct ev as [k r|k|k]; cbn.
  - rewrite resolve_pending. apply Hu.
  - destruct (decide (k1 = k)) as [->|H1], (decide (k2 = k)) as [->|H2]; try done;
      rewrite ?lookup_insert_eq, ?lookup_insert_ne by done.
    + intros [= <-] H. specialize (Hwf _ _ H). lia.
    + intros H [= <-]. specialize (Hwf _ _ H). lia.
    + apply Hu.
  - destruct (decide (k1 = k)) as [->|H1]; [by rewrite lookup_delete_eq|].
    destruct (decide (k2 = k)) as [->|H2]; [by rewrite lookup_delete_eq|].
    rewrite !lookup_delete_ne by done. apply Hu.
Qed.

(** Every registry reachable from the empty one by registry operations
    is well formed and gives each future at most one key. *)
Lemma reachable_inv evs :
  wf_broker (apply_events evs empty_broker) ∧ owners_unique (apply_events evs empty_broker).
Proof.
  unfold apply_events.
  assert (H0 : wf_broker empty_broker ∧ owners_unique empty_broker).
  { split; [exact wf_empty|]. intros k1 k2 f H. cbn in H. by rewrite lookup_empty in H. }
  revert H0. generalize empty_broker.
  induction evs as [|ev evs IH]; intros b [Hwf Hu]; cbn; [done|].
  apply IH. split; [by apply wf_apply_event|by apply owners_unique_event].
Qed.

(** A future no key points at stays as it is under every registry
    operation, and no key comes to point at it. *)
Definition orphan (f : nat) (b : broker) : Prop :=
  f < next_future b ∧ ∀ k', pending b !! k' ≠ Some f.

Lemma orphan_event f b ev :
  orphan f b -> orphan f (apply_event b ev) ∧ futures (apply_event b ev) !! f = futures b !! f.
Proof.
  intros [Hlt Hno]. destruct ev as [k r|k|k]; cbn.
  - unfold resolve. destruct (pending b !! k) as [f'|] eqn:Hk; [|done].
    assert (f' ≠ f) by (intros ->; by apply (Hno k)).
    destruct (futures b !! f') as [[]|]; try done.
    split; [done|]. cbn. by rewrite lookup_insert_ne.
  - split; [split; cbn; [lia|]|cbn; rewrite lookup_insert_ne by lia; done].
    intros k'. destruct (decide (k' = k)) as [->|Hne].
    + rewrite lookup_insert_eq. intros [=]. lia.
    + rewrite lookup_insert_ne by done. apply Hno.
  - split; [split; cbn; [done|]|done].
    intros k'. destruct (decide (k' = k)) as [->|Hne].
    + by rewrite lookup_delete_eq.
    + rewrite lookup_delete_ne by done. apply Hno.
Qed.

Lemma orphan_events f b evs :
  orphan f b ->
  orphan f (apply_events evs b) ∧ futures (apply_events evs b) !! f = futures b !! f.
Proof.
  unfold apply_events. revert b.
  induction evs as [|ev evs IH]; intros b Ho; cbn; [done|].
  destruct (orphan_event f b ev Ho) as [Ho' Hf].
  destruct (IH _ Ho') as [Ho'' Hf']. split; [done|]. by rewrite Hf', Hf.
Qed.

(** C3 (as the code has it): in any registry reached from the empty one,
    a second registration for a key that already owns a slot [f] does not
    fail: it points the key at a fresh, unresolved slot.  The first slot
    is left as it was, and whatever registry operations follow (resolves,
    registrations and removals for any keys), no key points at it again
    and it is never written. *)
Theorem second_registration_overwrites evs0 k f :
  let b := apply_events evs0 empty_broker in
  pending b !! k = Some f ->
  pending (register k b) !! k = Some (next_future b) ∧ next_future b ≠ f ∧
  futures (register k b) !! next_future b = Some None ∧
  (∀ evs, futures (apply_events evs (register k b)) !! f = futures b !! f ∧
          ∀ k', pending (apply_events evs (register k b)) !! k' ≠ Some f).
Proof.
  intros b Hp. destruct (reachable_inv evs0) as [Hwf Hu]. fold b in Hwf, Hu.
  assert (Hlt : f < next_future b) by (apply (Hwf k); done).
  assert (Ho : orphan f (register k b)).
  { split; [cbn; lia|]. intros k'. cbn.
    destruct (decide (k' = k)) as [->|Hne].
    - rewrite lookup_insert_eq. intros [=]. lia.
    - rewrite lookup_insert_ne by done. intros H. apply Hne. by apply (Hu k' k f). }
  split_and!; cbn.
  - by rewrite lookup_insert_eq.
  - lia.
  - by rewrite lookup_insert_eq.
  - intros evs. destruct (orphan_events f _ evs Ho) as [[_ Hno] Hf].
    split; [|done]. rewrite Hf. cbn. by rewrite lookup_insert_ne by lia.
Qed.

Lemma second_registration_overwrites_witness :
  let b1 := apply_events [EvRegister (decision_key 7)] empty_broker in
  pending b1 !! decision_key 7 = Some 0 ∧
  pending (register (decision_key 7) b1) !! decision_key 7 = Some (next_future b1) ∧
  next_future b1 ≠ 0 ∧
  futures (register (decision_key 7) b1) !! next_future b1 = Some None ∧
  (∀ evs, futures (apply_events evs (register (decision_key 7) b1)) !! 0 = futures b1 !! 0 ∧
          ∀ k', pending (apply_events evs (register (decision_key 7) b1)) !! k' ≠ Some 0).
Proof.
  intros b1.
  assert (Hp : pending b1 !! decision_key 7 = Some 0) by (vm_compute; reflexivity).
  split; [exact Hp|].
  exact (second_registration_overwrites [EvRegister (decision_key 7)] (decision_key 7) 0 Hp).
Defined.

(** ** C4 *)

(** C4: every return of [send_triage_request], by resolution, timeout or
    exception, leaves no registry entry for the issue; and when no resolve
    for the issue arrives until the deadline, the call returns the
    synthesized timeout record. *)
Theorem timeout_and_cleanup n channel_found send_ok sched b :
  pending (snd (bot_send_triage_request n channel_found send_ok sched b))
    !! decision_key n = None ∧
  (wf_broker b ->
   (∀ e, e ≤ timeout_duration -> first_resolve (decision_key n) (nth e sched []) = None) ->
   fst (bot_send_triage_request n true true sched b) = Ok timeout_record).
Proof.
  split.
  - unfold bot_send_triage_request.
    destruct channel_found, send_ok; cbn -[wait_loop timeout_duration];
      try (destruct (wait_loop _ _ _ _ _)); cbn; apply lookup_delete_eq.
  - intros Hwf Hnone. unfold bot_send_triage_request. cbn -[wait_loop timeout_duration].
    destruct (wait_loop (S timeout_duration) 0 (decision_key n) sched
                (register (decision_key n) b)) as [r' b'] eqn:Hw.
    cbn. f_equal.
    change r' with (fst (r', b')). rewrite <- Hw.
    apply wait_loop_timeout.
    + split; [apply (wf_apply_event b (EvRegister _) Hwf)|].
      right. exists (next_future b). by apply register_slot.
    + intros e' _ ?. by apply Hnone.
Qed.

Lemma timeout_and_cleanup_witness :
  pending (snd (bot_send_triage_request 5 false true [] empty_broker)) !! decision_key 5 = None ∧
  fst (bot_send_triage_request 5 true true [] empty_broker) = Ok timeout_record.
Proof.
  split.
  - exact (proj1 (timeout_and_cleanup 5 false true [] empty_broker)).
  - apply (proj2 (timeout_and_cleanup 5 true true [] empty_broker)).
    + exact wf_empty.
    + intros e _. destruct e; reflexivity.
Defined.

End BrokerFacts.

(* ================================================================== *)
(** * Properties of the duplicate index without a client *)

Module WeaviateFacts.
Import PyText Weaviate.

Lemma lower_char_idem c : py_lower_char (py_lower_char c) = py_lower_char c.
Proof. destruct c as [[] [] [] [] [] [] [] []]; vm_compute; reflexivity. Qed.

Lemma isspace_lower_char c : py_isspace (py_lower_char c) = py_isspace c.
Proof. destruct c as [[] [] [] [] [] [] [] []]; vm_compute; reflexivity. Qed.

Lemma py_lower_idem s : py_lower (py_lower s) = py_lower s.
Proof. induction s as [|c s IH]; cbn; [done|]. by rewrite lower_char_idem, IH. Qed.

Lemma lstrip_lower s : py_lstrip (py_lower s) = py_lower (py_lstrip s).
Proof.
  induction s as [|c s IH]; cbn; [done|].
  rewrite isspace_lower_char. by destruct (py_isspace c).
Qed.

Lemma rev_app_lower s acc :
  str_rev_app (py_lower s) (py_lower acc) = py_lower (str_rev_app s acc).
Proof. revert acc. induction s as [|c s IH]; intros acc; cbn; [done|]. apply (IH (String c acc)). Qed.

Lemma str_rev_lower s : str_rev (py_lower s) = py_lower (str_rev s).
Proof. apply (rev_app_lower s EmptyString). Qed.

Lemma strip_lower s : py_strip (py_lower s) = py_lower (py_strip s).
Proof. unfold py_strip. by rewrite lstrip_lower, str_rev_lower, lstrip_lower, str_rev_lower. Qed.

Lemma title_scan_lower t issues : title_scan (py_lower t) issues = title_scan t issues.
Proof.
  induction issues as [|si issues IH]; cbn; [done|].
  by rewrite strip_lower, py_lower_idem, IH.
Qed.

Lemma search_text_lower t b : search_text (py_lower t) (py_lower b) = search_text t b.
Proof. unfold search_text. by rewrite !py_lower_idem. Qed.

(** The overlap ratio lies between 0 and 1. *)
Lemma word_overlap_bounds sw tw q :
  word_overlap sw tw = Some q -> (0 <= q /\ q <= 1)%Q.
Proof.
  unfold word_overlap.
  set (a := remove_dups sw). set (b := remove_dups tw).
  destruct (Nat.ltb 0 (length a) && Nat.ltb 0 (length b)) eqn:Hpos; [|discriminate].
  intros [= <-]. apply andb_true_iff in Hpos as [Ha _]. apply Nat.ltb_lt in Ha.
  set (i := length (filter (fun w => w ∈ b) a)).
  set (u := length (remove_dups (a ++ b))).
  assert (Hau : length a ≤ u).
  { apply submseteq_length, NoDup_submseteq; [apply NoDup_remove_dups|].
    intros x Hx. apply elem_of_remove_dups, elem_of_app. by left. }
  assert (Hiu : i ≤ u).
  { apply submseteq_length, NoDup_submseteq.
    - apply NoDup_filter, NoDup_remove_dups.
    - intros x Hx. apply list_elem_of_filter in Hx as [_ Hx].
      apply elem_of_remove_dups, elem_of_app. by left. }
  assert (Hu : (0 < inject_Z (Z.of_nat u))%Q).
  { change 0%Q with (inject_Z 0). rewrite <- Zlt_Qlt. lia. }
  split.
  - apply Qle_shift_div_l; [done|]. rewrite Qmult_0_l.
    change 0%Q with (inject_Z 0). rewrite <- Zle_Qle. lia.
  - apply Qle_shift_div_r; [done|]. rewrite Qmult_1_l. rewrite <- Zle_Qle. lia.
Qed.

Lemma filter_elem_self (a : list string) : filter (λ w : string, w ∈ a) a = a.
Proof.
  assert (H : ∀ l : list string, (∀ x, x ∈ l -> x ∈ a) -> filter (λ w : string, w ∈ a) l = l).
  { induction l as [|x l IH]; intros Hl; [done|].
    rewrite filter_cons_True by (apply Hl; constructor).
    f_equal. apply IH. intros y Hy. apply Hl. by constructor. }
  by apply H.
Qed.

(** A word list compared with itself has overlap 1. *)
Lemma word_overlap_self sw : sw ≠ [] -> ∃ q, word_overlap sw sw = Some q ∧ q == 1.
Proof.
  intros Hne. unfold word_overlap.
  set (a := remove_dups sw).
  assert (Ha : 0 < length a).
  { destruct sw as [|x sw]; [done|].
    assert (x ∈ a) by (apply elem_of_remove_dups; constructor).
    destruct a; [by apply not_elem_of_nil in H|]. cbn. lia. }
  apply Nat.ltb_lt in Ha. rewrite Ha. cbn. eexists. split; [reflexivity|].
  apply Nat.ltb_lt in Ha.
  rewrite filter_elem_self.
  assert (Hu : length (remove_dups (a ++ a)) = length a).
  { apply Nat.le_antisymm; apply submseteq_length, NoDup_submseteq;
      try apply NoDup_remove_dups; intros x Hx.
    - apply elem_of_remove_dups, elem_of_app in Hx. by destruct Hx.
    - apply elem_of_remove_dups, elem_of_app. by left. }
  rewrite Hu. unfold Qdiv. apply Qmult_inv_r.
  change 0%Q with (inject_Z 0). rewrite inject_Z_injective. lia.
Qed.

Lemma word_overlap_nil tw : word_overlap [] tw = None.
Proof. reflexivity. Qed.

Lemma overlap_scan_nil_words thr issues : overlap_scan thr [] issues = None.
Proof. induction issues as [|si issues IH]; [done|]. cbn -[word_overlap]. by rewrite word_overlap_nil. Qed.

Lemma overlap_scan_app thr sw l1 l2 :
  overlap_scan thr sw (l1 ++ l2) =
    match overlap_scan thr sw l1 with Some x => Some x | None => overlap_scan thr sw l2 end.
Proof.
  induction l1 as [|si l1 IH]; cbn; [done|].
  destruct (word_overlap _ _) as [q|]; [destruct (Qle_bool thr q)|]; auto.
Qed.

Lemma title_scan_app t l1 l2 :
  title_scan t (l1 ++ l2) =
    match title_scan t l1 with Some x => Some x | None => title_scan t l2 end.
Proof.
  induction l1 as [|si l1 IH]; cbn; [done|].
  by destruct (String.eqb _ _).
Qed.

Lemma overlap_scan_sound thr sw issues i q :
  overlap_scan thr sw issues = Some (i, q) ->
  ∃ si, si ∈ issues ∧ si_issue_id si = i ∧ (thr <= q ∧ 0 <= q ∧ q <= 1)%Q.
Proof.
  induction issues as [|si issues IH]; cbn; [discriminate|].
  destruct (word_overlap _ _) as [q'|] eqn:Hw.
  - destruct (Qle_bool thr q') eqn:Hle.
    + intros [= <- <-]. apply Qle_bool_iff in Hle.
      destruct (word_overlap_bounds _ _ _ Hw).
      exists si. split_and!; [constructor|done..].
    + intros H. destruct (IH H) as (si' & ? & ?). exists si'. split; [by constructor|done].
  - intros H. destruct (IH H) as (si' & ? & ?). exists si'. split; [by constructor|done].
Qed.

Lemma title_scan_sound t issues i :
  title_scan t issues = Some i ->
  ∃ si, si ∈ issues ∧ si_issue_id si = i ∧
        py_lower (py_strip t) = py_lower (py_strip (si_title si)).
Proof.
  induction issues as [|si issues IH]; cbn; [discriminate|].
  destruct (String.eqb _ _) eqn:He.
  - intros [= <-]. apply String.eqb_eq in He. exists si. split_and!; [constructor|done..].
  - intros H. destruct (IH H) as (si' & ? & ?). exists si'. split; [by constructor|done].
Qed.

Lemma find_self_match issues i t b thr :
  (thr <= 1)%Q ->
  ∃ j q, mock_find_duplicate (mock_add_issue issues i t b) t b thr = (Some j, Some q) ∧
    (issues = [] -> j = i ∧ (q == 1 ∨ q = 95 # 100)).
Proof.
  intros Hthr. unfold mock_find_duplicate, mock_add_issue.
  rewrite overlap_scan_app.
  destruct (decide (py_split (search_text t b) = [])) as [Hnil|Hne].
  - rewrite Hnil, !overlap_scan_nil_words, title_scan_app. cbn.
    rewrite String.eqb_refl.
    destruct (title_scan t issues) as [j|] eqn:Ht.
    + exists j, (95 # 100). split; [done|]. intros ->. discriminate.
    + exists i, (95 # 100). split; [done|]. intros _. by split; [|right].
  - destruct (overlap_scan thr (py_split (search_text t b)) issues) as [[j q]|] eqn:Ho.
    + exists j, q. split; [done|]. intros ->. discriminate.
    + cbn. destruct (word_overlap_self _ Hne) as (q & -> & Hq).
      assert (Hle : Qle_bool thr q = true) by (apply Qle_bool_iff; by rewrite Hq).
      rewrite Hle. exists i, q. split; [done|]. intros _. by split; [|left].
Qed.

(** Every answer of the search is either no match, or a stored issue's id
    with either an overlap score between the threshold and 1 or the score
    0.95 of an equal stripped, lower-cased title. *)
Theorem mock_find_duplicate_sound issues t b thr :
  mock_find_duplicate issues t b thr = (None, None) ∨
  ∃ si q, si ∈ issues ∧
    mock_find_duplicate issues t b thr = (Some (si_issue_id si), Some q) ∧
    ((thr <= q ∧ 0 <= q ∧ q <= 1)%Q ∨
     (q = 95 # 100 ∧ py_lower (py_strip t) = py_lower (py_strip (si_title si)))).
Proof.
  unfold mock_find_duplicate.
  destruct (overlap_scan thr _ issues) as [[i q]|] eqn:Ho.
  - right. destruct (overlap_scan_sound _ _ _ _ _ Ho) as (si & Hin & <- & H).
    exists si, q. split_and!; [done|done|by left].
  - destruct (title_scan t issues) as [i|] eqn:Ht; [|by left].
    right. destruct (title_scan_sound _ _ _ Ht) as (si & Hin & <- & H).
    exists si, (95 # 100). split_and!; [done|done|by right].
Qed.



(** The search ignores letter case in the new report's title and body. *)
Theorem mock_find_duplicate_case_insensitive issues t b thr :
  mock_find_duplicate issues (py_lower t) (py_lower b) thr =
    mock_find_duplicate issues t b thr.
Proof. unfold mock_find_duplicate. by rewrite search_text_lower, title_scan_lower. Qed.

(** The text-similarity fallback (used when the embedding call fails)
    answers only matches at or above the threshold, and each of its
    matches is also the answer of the client-less search. *)
Theorem fallback_text_similarity_sound issues t b thr :
  fallback_text_similarity issues t b thr = (None, None) ∨
  ∃ i q, fallback_text_similarity issues t b thr = (Some i, Some q) ∧ (thr <= q)%Q ∧
         mock_find_duplicate issues t b thr = (Some i, Some q).
Proof.
  unfold fallback_text_similarity, mock_find_duplicate.
  destruct (overlap_scan thr _ issues) as [[i q]|] eqn:Ho; [|by left].
  right. destruct (overlap_scan_sound _ _ _ _ _ Ho) as (si & _ & _ & Hq & _).
  by exists i, q.
Qed.

End WeaviateFacts.

(* ================================================================== *)
(** * Properties of the analysis provider *)

Module AIFacts.
Import AIManager.



End AIFacts.

(* ================================================================== *)
(** * The whole triage run *)

Module PipelineMore.
Import Broker Channel Pipeline Wiring PipelineFacts.

(** The state after phases 1 and 2, which is what the channel is shown. *)
Definition analysed_state (env : collaborators) (d : issue_data) : triage_state :=
  fst (snd ((perform_ai_analysis env ;; perform_duplicate_detection env) (init_state d, []))).

(** A triager who submits the bot's modify form with severity ["Low"]
    and the text ["Only on Safari"]. *)
Definition env_modify : collaborators :=
  mk_collaborators (fun _ _ => Ok "High") (fun _ _ => Ok "Login fails")
    (fun _ _ _ => Ok (None, None))
    (fun c => Ok (bot_modify_record "Low" "Only on Safari" (cl_is_duplicate c)))
    (fun _ => true) true (fun _ => "0.0%").

(** No webhook URL (the bot and loop fields are then never read). *)
Definition channel_unset : channel_env :=
  mk_channel_env "" true SameLoop false false [] false.


Lemma analysed_split env d :
  phases env (init_state d, []) =
    bind (request_human_clarification env)
      (fun _ => bind (execute_decision env)
         (fun _ => send_completion_notification env)) (analysed_state env d, []) ∧
  actions_executed (analysed_state env d) = [] ∧
  human_decision (analysed_state env d) = None ∧
  issue_id (analysed_state env d) = issue_id (init_state d) ∧
  issue_title (analysed_state env d) = issue_title (init_state d) ∧
  issue_body (analysed_state env d) = issue_body (init_state d) ∧
  severity (analysed_state env d) =
    severity (fst (snd (perform_ai_analysis env (init_state d, [])))) ∧
  ai_summary (analysed_state env d) =
    ai_summary (fst (snd (perform_ai_analysis env (init_state d, [])))).
Proof.
  destruct (ai_analysis_shape env (init_state d) []) as (sev & summ & H1).
  destruct (duplicate_detection_shape env (set_analysis (Some sev) (Some summ) (init_state d)) [])
    as (dup & sc & did & pc & H2).
  unfold analysed_state, phases, mbind, M_bind.
  rewrite !(bind_ok _ _ _ _ _ H1), H1, (bind_ok _ _ _ _ _ H2), H2.
  split_and!; reflexivity.
Qed.

Lemma triage_analysed env d :
  triage_new_issue env d =
    match human env (make_clarification (analysed_state env d)) with
    | Exc e =>
        (Failure (issue_id (init_state d))
           (String.append "Human clarification required but failed: " e), [])
    | Ok r =>
        match execute_decision env (set_human_decision r (analysed_state env d), []) with
        | (Exc e, (s4, l4)) => (Failure (issue_id s4) e, l4)
        | (Ok _, (s4, l4)) =>
            (Success (issue_id s4) (severity s4) (ai_summary s4) (is_duplicate s4)
               (similarity_score s4) (human_decision s4) (actions_executed s4)
               (notify_ok env), l4 ++ [CNotify (completion_summary s4)])
        end
    end.
Proof.
  destruct (analysed_split env d) as (Hp & _ & _ & Hi & _).
  set (s2 := analysed_state env d) in *.
  unfold triage_new_issue. rewrite Hp.
  destruct (human env (make_clarification s2)) as [r|e] eqn:Hhum.
  - rewrite (bind_ok _ _ _ _ _ (human_ok env s2 [] r Hhum)).
    destruct (execute_decision env (set_human_decision r s2, [])) as [[u|e] [s4 l4]] eqn:Hex.
    + rewrite (bind_ok _ _ _ _ _ Hex), notification_shape. reflexivity.
    + rewrite (bind_exc _ _ _ _ _ Hex). reflexivity.
  - rewrite (bind_exc _ _ _ _ _ (human_exc env s2 [] e Hhum)), Hi. reflexivity.
Qed.

(** Phase 4 never raises, only appends calls other than the
    notification, and keeps every field but the action map. *)
Lemma execute_keeps env s l r :
  human_decision s = Some r ->
  ∃ s' extra, execute_decision env (s, l) = (Ok tt, (s', l ++ extra)) ∧
    human_decision s' = Some r ∧ is_duplicate s' = is_duplicate s ∧
    issue_id s' = issue_id s ∧ severity s' = severity s ∧
    ai_summary s' = ai_summary s ∧ similarity_score s' = similarity_score s ∧
    (∀ m, CNotify m ∉ extra).
Proof.
  intros Hhd.
  assert (Hnil : ∀ m, CNotify m ∉ ([] : list call)) by (intros m; apply not_elem_of_nil).
  destruct (decide (rec_decision r = "approve")) as [Ha|Ha].
  { destruct (is_duplicate s) eqn:Hd.
    - rewrite (execute_approve_duplicate env s l r Hhd Ha Hd).
      eexists _, _. split_and!; [reflexivity|done..|].
      intros m Hm. repeat (apply elem_of_cons in Hm as [Hm|Hm]; [discriminate|]).
      by apply not_elem_of_nil in Hm.
    - rewrite (execute_approve_new env s l r Hhd Ha Hd).
      eexists _, _. split_and!; [reflexivity|done..|].
      intros m Hm. repeat (apply elem_of_cons in Hm as [Hm|Hm]; [discriminate|]).
      by apply not_elem_of_nil in Hm. }
  destruct (decide (rec_decision r = "reject")) as [Hr|Hr].
  { rewrite (execute_reject env s l r Hhd Hr).
    exists (set_action "rejected" (PBool true) s), []. rewrite app_nil_r. by split_and!. }
  destruct (decide (rec_decision r = "timeout")) as [Ht|Ht].
  { rewrite (execute_timeout env s l r Hhd Ht).
    exists (set_action "timed_out" (PBool true) s), []. rewrite app_nil_r. by split_and!. }
  rewrite (execute_other env s l r Hhd Ha Hr Ht).
  exists s, []. rewrite app_nil_r. by split_and!.
Qed.

(** Phase 1 with [ai_manager] as provider. *)
Lemma ai_analysis_with_ai g env s l :
  perform_ai_analysis (with_ai g env) (s, l) =
    (Ok tt, (set_analysis (Some (AIManager.classify_severity g (issue_title s) (issue_body s)))
               (Some (AIManager.summarize_issue g (issue_title s) (issue_body s))) s, l)).
Proof. unfold perform_ai_analysis. run_M. reflexivity. Qed.

(** The triage outcome, the result fields and the log are determined by
    the channel's answer on the analysed state. *)
Lemma triage_on_answer env d r :
  human env (make_clarification (analysed_state env d)) = Ok r ->
  ∃ s4 extra,
    execute_decision env (set_human_decision r (analysed_state env d), []) =
      (Ok tt, (s4, extra)) ∧
    triage_new_issue env d =
      (Success (issue_id s4) (severity s4) (ai_summary s4) (is_duplicate s4)
         (similarity_score s4) (human_decision s4) (actions_executed s4)
         (notify_ok env), extra ++ [CNotify (completion_summary s4)]) ∧
    human_decision s4 = Some r ∧
    is_duplicate s4 = is_duplicate (analysed_state env d) ∧
    issue_id s4 = issue_id (init_state d) ∧
    severity s4 = severity (analysed_state env d) ∧
    ai_summary s4 = ai_summary (analysed_state env d) ∧
    (∀ m, CNotify m ∉ extra).
Proof.
  intros Hh. destruct (analysed_split env d) as (_ & _ & _ & Hi & _).
  destruct (execute_keeps env (set_human_decision r (analysed_state env d)) [] r eq_refl)
    as (s4 & extra & Hex & Hd & Hdup & Hid & Hsev & Hsum & _ & Hn).
  exists s4, extra. rewrite triage_analysed, Hh, Hex.
  split_and!; try done; by rewrite ?Hid, ?Hi.
Qed.

(** Phase 2 when the index answers no match. *)
Lemma detection_no_match env s l :
  find_duplicate env (issue_title s) (issue_body s) (85 # 100) = Ok (None, None) ->
  perform_duplicate_detection env (s, l) = (Ok tt, (s, l)).
Proof. intros Hf. unfold perform_duplicate_detection. run_M. by rewrite Hf. Qed.

Lemma analysed_no_match env d :
  find_duplicate env (issue_title (init_state d)) (issue_body (init_state d)) (85 # 100)
    = Ok (None, None) ->
  analysed_state env d = fst (snd (perform_ai_analysis env (init_state d, []))).
Proof.
  intros Hf. destruct (ai_analysis_shape env (init_state d) []) as (sev & summ & H1).
  unfold analysed_state, mbind, M_bind. rewrite (bind_ok _ _ _ _ _ H1), H1.
  by rewrite (detection_no_match env (set_analysis (Some sev) (Some summ) (init_state d)) [] Hf).
Qed.

Lemma analysed_match env d did q :
  find_duplicate env (issue_title (init_state d)) (issue_body (init_state d)) (85 # 100)
    = Ok (Some did, Some q) ->
  did ≠ 0%Z -> ¬ (q == 0)%Q ->
  analysed_state env d =
    set_duplicate true (Some q) (Some did) (Some (draft_duplicate_comment env did q))
      (fst (snd (perform_ai_analysis env (init_state d, [])))).
Proof.
  intros Hf Hd Hq. destruct (ai_analysis_shape env (init_state d) []) as (sev & summ & H1).
  unfold analysed_state, mbind, M_bind. rewrite (bind_ok _ _ _ _ _ H1), H1.
  by rewrite (duplicate_detection_match env (set_analysis (Some sev) (Some summ) (init_state d))
               [] did q Hf Hd Hq).
Qed.



(** With [ai_manager] as analysis provider, a successful triage reports
    as severity and summary exactly what [AIManager.classify_severity] and
    [AIManager.summarize_issue] return for the report's title and body:
    the pipeline's own fallback is never taken, since the manager does
    not raise. *)
Theorem triage_with_ai_analysis g env d :
  match fst (triage_new_issue (with_ai g env) d) with
  | Success _ sev summ _ _ _ _ _ =>
      sev = Some (AIManager.classify_severity g (issue_title (init_state d))
                    (issue_body (init_state d))) ∧
      summ = Some (AIManager.summarize_issue g (issue_title (init_state d))
                     (issue_body (init_state d)))
  | Failure _ _ => True
  end.
Proof.
  destruct (human (with_ai g env) (make_clarification (analysed_state (with_ai g env) d)))
    as [r|e] eqn:Hh.
  - destruct (triage_on_answer _ d r Hh) as (s4 & extra & _ & -> & _ & _ & _ & Hs & Hm & _).
    destruct (analysed_split (with_ai g env) d) as (_ & _ & _ & _ & _ & _ & Hs2 & Hm2).
    cbn [fst]. rewrite Hs, Hm, Hs2, Hm2, ai_analysis_with_ai. by split.
  - by rewrite triage_analysed, Hh.
Qed.

(** When the triager submits the bot's modify form (edited severity and
    text), the edits are what reaches the record store: for a new issue
    the label is the edited severity, taken verbatim, and the posted
    analysis shows the edited severity and text; for a duplicate the
    posted comment is the edited text.  The calls are the same as for a
    plain approval, followed by the notification. *)
Theorem modified_approval_applies_edits env d sev text :
  (∀ c, human env c = Ok (bot_modify_record sev text (cl_is_duplicate c))) ->
  let n := issue_id (init_state d) in
  ∃ msg, snd (triage_new_issue env d) =
    (if is_duplicate (analysed_state env d) then
       [CPostComment n (PStr text); CAddLabel n (PStr "duplicate"); CCloseIssue n "duplicate"]
     else
       [CAddLabel n (PStr sev); CPostComment n (PStr (summary_comment (PStr sev) (PStr text)));
        CAddIssue n (issue_title (init_state d)) (issue_body (init_state d))])
    ++ [CNotify msg].
Proof.
  intros Hh n. rewrite triage_analysed, Hh.
  destruct (analysed_split env d) as (_ & _ & _ & Hi & Ht & Hb & _).
  set (s2 := analysed_state env d) in *. subst n.
  cbn [make_clarification cl_is_duplicate].
  destruct (is_duplicate s2) eqn:Hd.
  - rewrite (execute_approve_duplicate env (set_human_decision (bot_modify_record sev text true) s2)
               [] _ eq_refl eq_refl Hd).
    cbn -[completion_summary set_action]. rewrite Hi. by eexists.
  - rewrite (execute_approve_new env (set_human_decision (bot_modify_record sev text false) s2)
               [] _ eq_refl eq_refl Hd).
    cbn -[completion_summary set_action summary_comment]. rewrite Hi, Ht, Hb. by eexists.
Qed.

(** Two runs on the same numbered report (number [n ≠ 0], title and body
    present as strings) against the client-less index, starting empty,
    with a triager who approves: the
    first run does not flag the report and stores it in the index; the
    second run, on the index the first left, flags it as a duplicate of
    [#n] with score 1 (0.95 when title and body hold no word) and its
    first call posts the drafted duplicate comment on [#n]. *)
Theorem approved_issue_found_on_retriage env d n title body :
  in_number d = Some n -> n ≠ 0%Z ->
  in_title d = Some title -> in_body d = Some body ->
  (∀ c, human env c = Ok approve_record) ->
  let run1 := triage_new_issue (with_index [] env) d in
  let run2 := triage_new_issue (with_index (index_after [] (snd run1)) env) d in
  (match fst run1 with Success _ _ _ dup _ _ _ _ => dup = false | Failure _ _ => False end) ∧
  ∃ q rest, (q == 1 ∨ q = 95 # 100)%Q ∧
    (match fst run2 with
     | Success n' _ _ dup sc _ _ _ => n' = n ∧ dup = true ∧ sc = Some q
     | Failure _ _ => False end) ∧
    snd run2 = CPostComment n (PStr (draft_duplicate_comment env n q)) :: rest.
Proof.
  intros Hn Hn0 _ _ Hh run1 run2.
  assert (Hid : issue_id (init_state d) = n) by (cbn; by rewrite Hn).
  set (t := issue_title (init_state d)). set (b := issue_body (init_state d)).
  (* first run *)
  assert (Ha1 : analysed_state (with_index [] env) d =
                fst (snd (perform_ai_analysis (with_index [] env) (init_state d, []))))
    by (by apply analysed_no_match).
  destruct (ai_analysis_shape (with_index [] env) (init_state d) []) as (sev & summ & H1).
  rewrite H1 in Ha1. cbn [fst snd] in Ha1.
  assert (Hr1 : ∃ acts sent msg,
    run1 = (Success n (Some sev) (Some summ) false None (Some approve_record) acts sent,
      [CAddLabel n (PStr sev); CPostComment n (PStr (summary_comment (PStr sev) (PStr summ)));
       CAddIssue n t b] ++ [CNotify msg])).
  { unfold run1. rewrite triage_analysed, Ha1.
    change (human (with_index [] env)) with (human env). rewrite Hh.
    rewrite (execute_approve_new (with_index [] env)
               (set_human_decision approve_record (set_analysis (Some sev) (Some summ) (init_state d)))
               [] _ eq_refl eq_refl eq_refl).
    cbn -[completion_summary summary_comment init_state]. rewrite Hid.
    by do 3 eexists. }
  destruct Hr1 as (acts1 & sent1 & msg1 & Hr1).
  split; [by rewrite Hr1|].
  (* second run *)
  assert (Hidx : index_after [] (snd run1) = Weaviate.mock_add_issue [] n t b)
    by (by rewrite Hr1).
  assert (Hle : (85 # 100 <= 1)%Q) by (vm_compute; discriminate).
  destruct (WeaviateFacts.find_self_match [] n t b (85 # 100) Hle) as (j & q & Hf & Hjq).
  destruct (Hjq eq_refl) as [-> Hq].
  assert (Hq0 : ¬ (q == 0)%Q).
  { intros H0. destruct Hq as [Hq | ->].
    - rewrite H0 in Hq. vm_compute in Hq. discriminate.
    - vm_compute in H0. discriminate. }
  set (env2 := with_index (index_after [] (snd run1)) env).
  assert (Ha2 : analysed_state env2 d =
      set_duplicate true (Some q) (Some n) (Some (draft_duplicate_comment env2 n q))
        (fst (snd (perform_ai_analysis env2 (init_state d, []))))).
  { apply analysed_match; [|done|done]. unfold env2. cbn [find_duplicate with_index].
    rewrite Hidx. f_equal. exact Hf. }
  destruct (ai_analysis_shape env2 (init_state d) []) as (sev2 & summ2 & H2).
  rewrite H2 in Ha2. cbn [fst snd] in Ha2.
  exists q. unfold run2. fold env2. rewrite triage_analysed, Ha2.
  change (human env2) with (human env). rewrite Hh.
  rewrite (execute_approve_duplicate env2
             (set_human_decision approve_record
                (set_duplicate true (Some q) (Some n) (Some (draft_duplicate_comment env2 n q))
                   (set_analysis (Some sev2) (Some summ2) (init_state d))))
             [] _ eq_refl eq_refl eq_refl).
  cbn -[completion_summary draft_duplicate_comment init_state]. rewrite Hid.
  eexists. split_and!; [done|done|done|done|reflexivity].
Qed.


(** With no webhook URL configured, every triage wired to
    [DiscordManager.send_triage_request] succeeds with an approval as the
    human decision, whatever the registry holds, and reports that no
    completion message was sent. *)
Theorem unconfigured_channel_always_approves cenv b post_ok env d :
  webhook_url cenv = "" ->
  match triage_new_issue (with_channel cenv b post_ok env) d with
  | (Success _ _ _ _ _ hd _ sent, _) => hd = Some approve_record ∧ sent = false
  | (Failure _ _, _) => False
  end.
Proof.
  intros Hw. set (env' := with_channel cenv b post_ok env).
  assert (Hh : human env' (make_clarification (analysed_state env' d)) = Ok approve_record).
  { cbn [env' human with_channel]. unfold manager_send_triage_request. by rewrite Hw. }
  destruct (triage_on_answer env' d _ Hh) as (s4 & extra & _ & -> & Hd & _).
  split; [done|]. cbn [env' notify_ok with_channel]. unfold send_completion_message.
  by rewrite Hw.
Qed.


Lemma modified_approval_applies_edits_witness :
  (∀ c, human env_modify c =
          Ok (bot_modify_record "Low" "Only on Safari" (cl_is_duplicate c))) ∧
  let n := issue_id (init_state report_7) in
  ∃ msg, snd (triage_new_issue env_modify report_7) =
    (if is_duplicate (analysed_state env_modify report_7) then
       [CPostComment n (PStr "Only on Safari"); CAddLabel n (PStr "duplicate");
        CCloseIssue n "duplicate"]
     else
       [CAddLabel n (PStr "Low");
        CPostComment n (PStr (summary_comment (PStr "Low") (PStr "Only on Safari")));
        CAddIssue n (issue_title (init_state report_7)) (issue_body (init_state report_7))])
    ++ [CNotify msg].
Proof.
  assert (Hh : ∀ c, human env_modify c =
                      Ok (bot_modify_record "Low" "Only on Safari" (cl_is_duplicate c)))
    by (intros c; reflexivity).
  split; [exact Hh|].
  exact (modified_approval_applies_edits env_modify report_7 "Low" "Only on Safari" Hh).
Defined.

Lemma approved_issue_found_on_retriage_witness :
  (in_number report_7 = Some 7%Z ∧ 7%Z ≠ 0%Z ∧
   in_title report_7 = Some "Login broken" ∧ in_body report_7 = Some "cannot log in" ∧
   ∀ c, human (env_decide approve_record) c = Ok approve_record) ∧
  let env := env_decide approve_record in
  let run1 := triage_new_issue (with_index [] env) report_7 in
  let run2 := triage_new_issue (with_index (index_after [] (snd run1)) env) report_7 in
  (match fst run1 with Success _ _ _ dup _ _ _ _ => dup = false | Failure _ _ => False end) ∧
  ∃ q rest, (q == 1 ∨ q = 95 # 100)%Q ∧
    (match fst run2 with
     | Success n' _ _ dup sc _ _ _ => n' = 7%Z ∧ dup = true ∧ sc = Some q
     | Failure _ _ => False end) ∧
    snd run2 = CPostComment 7 (PStr (draft_duplicate_comment env 7 q)) :: rest.
Proof.
  assert (H1 : in_number report_7 = Some 7%Z) by reflexivity.
  assert (H2 : 7%Z ≠ 0%Z) by lia.
  assert (Ht : in_title report_7 = Some "Login broken") by reflexivity.
  assert (Hb : in_body report_7 = Some "cannot log in") by reflexivity.
  assert (H3 : ∀ c, human (env_decide approve_record) c = Ok approve_record)
    by (intros c; reflexivity).
  split; [split_and!; assumption|].
  exact (approved_issue_found_on_retriage (env_decide approve_record) report_7 7
           "Login broken" "cannot log in" H1 H2 Ht Hb H3).
Defined.

Lemma unconfigured_channel_always_approves_witness :
  webhook_url channel_unset = "" ∧
  match triage_new_issue (with_channel channel_unset empty_broker true
                            (env_decide reject_record)) report_7 with
  | (Success _ _ _ _ _ hd _ sent, _) => hd = Some approve_record ∧ sent = false
  | (Failure _ _, _) => False
  end.
Proof.
  assert (Hw : webhook_url channel_unset = "") by reflexivity.
  split; [exact Hw|].
  exact (unconfigured_channel_always_approves channel_unset empty_broker true
           (env_decide reject_record) report_7 Hw).
Defined.


End PipelineMore.

(* ================================================================== *)
(** * Properties of the webhook endpoint *)

Module ServerFacts.
Import Server.

#[local] Arguments status {A} _.

(** A secret, a digest that is the secret followed by the body, a
    decoder that reads every body as an opened issue, and a processing
    that succeeds. *)
Definition demo_hexdigest (key body : string) : string := String.append key body.

Definition demo_payload : json :=
  JObj [("action", JStr "opened"); ("issue", JObj [("number", JNum 7)]);
        ("repository", JObj [("full_name", JStr "acme/app")])].

Definition demo_loads (body : string) : parse_outcome := Parsed demo_payload.

Definition demo_request (sig : string) : request := mk_request "{}" sig "issues".

Section Endpoint.
Variables (secret : string) (hexdigest : string -> string -> string)
  (json_loads : string -> parse_outcome) (A : Type) (process : json -> res A)
  (result_success : A -> bool) (result_error : A -> option string).

Definition handle := handle_webhook secret hexdigest json_loads A process result_success
  result_error.

(** One request: the counters it moves and the statuses it can answer. *)
Lemma handle_step now st req :
  let '(resp, st', p) := handle now st req in
  total_received st' = S (total_received st) ∧ last_webhook st' = Some now ∧
  status resp ∈ [200; 400; 401; 500] ∧
  ((status resp = 200 ∧ errors st' = errors st ∧
    issues_triaged st' = match p with [] => issues_triaged st | _ => S (issues_triaged st) end) ∨
   (status resp ≠ 200 ∧ errors st' = S (errors st) ∧ issues_triaged st' = issues_triaged st)).
Proof.
  unfold handle, handle_webhook.
  repeat case_match; simplify_eq/=; split_and!; try done; try set_solver;
    first [by left | by right].
Qed.

Lemma handle_all_gen st reqs :
  let st' := handle_all secret hexdigest json_loads A process result_success result_error
               st reqs in
  total_received st' = total_received st + length reqs ∧
  issues_triaged st' + errors st' <= issues_triaged st + errors st + length reqs ∧
  last_webhook st' = match reqs with [] => last_webhook st | _ => fst <$> last reqs end.
Proof.
  revert st. induction reqs as [|[now req] reqs IH]; intros st; cbn; [split_and!; (lia || done)|].
  pose proof (handle_step now st req) as Hs. unfold handle in Hs.
  destruct (handle_webhook _ _ _ _ _ _ _ now st req) as [[resp st1] p].
  destruct (IH st1) as (Ht & Hc & Hl).
  destruct Hs as (Ht1 & Hl1 & _ & Hcase).
  split_and!.
  - rewrite Ht, Ht1. lia.
  - destruct Hcase as [(_ & He & Hi)|(_ & He & Hi)]; [destruct p|]; lia.
  - rewrite Hl. destruct reqs as [|r reqs]; [done|]. cbn. by destruct reqs.
Qed.

Lemma is_opened_iff j : is_opened j = true <-> j = JStr "opened".
Proof.
  destruct j; cbn; split; try done.
  - by intros ->%String.eqb_eq.
  - intros [= ->]. apply String.eqb_refl.
Qed.

(** Every request is counted and time-stamped, and the answer is one of
    200, 400, 401 and 500: an answer other than 200 counts one error and
    no triage; a 200 counts no error, and one triage exactly when the
    payload was handed to [process_webhook]. *)
Theorem handle_webhook_accounting now st req :
  let '(resp, st', p) := handle now st req in
  total_received st' = S (total_received st) ∧ last_webhook st' = Some now ∧
  status resp ∈ [200; 400; 401; 500] ∧
  ((status resp = 200 ∧ errors st' = errors st ∧
    issues_triaged st' = match p with [] => issues_triaged st | _ => S (issues_triaged st) end) ∨
   (status resp ≠ 200 ∧ errors st' = S (errors st) ∧ issues_triaged st' = issues_triaged st)).
Proof. apply handle_step. Qed.

(** From the initial statistics, after a sequence of requests
    [total_received] is the number of requests, triages and errors
    together never exceed it, and [last_webhook] is the arrival time of
    the last request ([None] before any). *)
Theorem handle_all_counts reqs :
  let st := handle_all secret hexdigest json_loads A process result_success result_error
              initial_stats reqs in
  total_received st = length reqs ∧
  issues_triaged st + errors st <= total_received st ∧
  last_webhook st = fst <$> last reqs.
Proof.
  destruct (handle_all_gen initial_stats reqs) as (Ht & Hc & Hl).
  cbn in Ht, Hc. split_and!; [lia|lia|]. rewrite Hl. by destruct reqs.
Qed.

(** With a secret configured, a request whose signature header is not
    ["sha256="] followed by the body's digest is never processed and
    counts one error.  It is answered 401, except when the header is
    non-empty and it or the expected signature holds a non-ASCII
    character: [hmac.compare_digest] then raises and the answer is 500. *)
Theorem bad_signature_rejected now st req :
  secret ≠ "" ->
  req_signature req ≠ String.append "sha256=" (hexdigest secret (req_body req)) ->
  let '(resp, st', p) := handle now st req in
  p = [] ∧ errors st' = S (errors st) ∧ issues_triaged st' = issues_triaged st ∧
  status resp =
    (if String.eqb (req_signature req) "" ||
        (is_ascii_str (String.append "sha256=" (hexdigest secret (req_body req))) &&
         is_ascii_str (req_signature req))
     then 401 else 500).
Proof.
  intros Hs Hsig. unfold handle, handle_webhook, verify_webhook_signature.
  apply String.eqb_neq in Hs. rewrite Hs.
  destruct (String.eqb (req_signature req) "") eqn:He; cbn; [done|].
  destruct (is_ascii_str _ && is_ascii_str _) eqn:Ha; cbn; [|done].
  replace (String.eqb _ (req_signature req)) with false
    by (symmetry; apply String.eqb_neq; congruence).
  done.
Qed.

(** A payload is handed to [process_webhook] exactly when the signature
    check passes, the body decodes to a JSON object, the event header is
    ["issues"], the object's ["action"] is ["opened"] and its ["issue"]
    and ["repository"] entries are objects or missing; the payload handed
    over is the decoded body, at most once. *)
Theorem processed_exactly_when_authorised now st req :
  let p := snd (handle now st req) in
  length p <= 1 ∧
  ∀ pl, pl ∈ p <->
    ∃ fields issue repo, pl = JObj fields ∧
      verify_webhook_signature secret hexdigest (req_body req) (req_signature req) = Ok true ∧
      json_loads (req_body req) = Parsed (JObj fields) ∧
      req_event req = "issues" ∧
      json_get fields "action" (JStr "unknown") = JStr "opened" ∧
      json_get fields "issue" (JObj []) = JObj issue ∧
      json_get fields "repository" (JObj []) = JObj repo.
Proof.
  unfold handle, handle_webhook. cbn zeta.
  destruct (verify_webhook_signature _ _ _ _) as [[]|e] eqn:Hv;
    [|split; [cbn; lia|intros pl; split;
        [intros Hin; by apply not_elem_of_nil in Hin
        |intros (? & ? & ? & _ & Hv' & _); congruence]]..].
  destruct (json_loads (req_body req)) as [payload| |] eqn:Hj;
    [|split; [cbn; lia|intros pl; split;
        [intros Hin; by apply not_elem_of_nil in Hin
        |intros (? & ? & ? & _ & _ & Hj' & _); congruence]]..].
  destruct (String.eqb (req_event req) "issues") eqn:Hev; cbn [negb];
    [|split; [cbn; lia|intros pl; split;
        [intros Hin; by apply not_elem_of_nil in Hin
        |intros (? & ? & ? & _ & _ & _ & Hev' & _);
         apply String.eqb_neq in Hev; contradiction]]].
  apply String.eqb_eq in Hev.
  destruct payload as [| | | | |fields];
    try (split; [cbn; lia|intros pl; split;
        [intros Hin; by apply not_elem_of_nil in Hin
        |intros (? & ? & ? & _ & _ & Hj' & _); congruence]]).
  destruct (json_get fields "issue" (JObj [])) as [| | | | |issue] eqn:Hi;
    try (split; [cbn; lia|intros pl; split;
        [intros Hin; by apply not_elem_of_nil in Hin
        |intros (? & ? & ? & _ & _ & Hj' & _ & _ & Hi' & _); simplify_eq; congruence]]).
  destruct (json_get fields "repository" (JObj [])) as [| | | | |repo] eqn:Hr;
    try (split; [cbn; lia|intros pl; split;
        [intros Hin; by apply not_elem_of_nil in Hin
        |intros (? & ? & ? & _ & _ & Hj' & _ & _ & _ & Hr'); simplify_eq; congruence]]).
  destruct (is_opened (json_get fields "action" (JStr "unknown"))) eqn:Ho; cbn [negb].
  - apply is_opened_iff in Ho.
    assert (Hp : ∀ pl, pl ∈ [JObj fields] <->
      ∃ fields' issue' repo', pl = JObj fields' ∧ Ok true = Ok true ∧
        Parsed (JObj fields) = Parsed (JObj fields') ∧ req_event req = "issues" ∧
        json_get fields' "action" (JStr "unknown") = JStr "opened" ∧
        json_get fields' "issue" (JObj []) = JObj issue' ∧
        json_get fields' "repository" (JObj []) = JObj repo').
    { intros pl. rewrite list_elem_of_singleton. split.
      - intros ->. exists fields, issue, repo. by split_and!.
      - intros (f' & i' & r' & -> & _ & Hf & _). by simplify_eq. }
    destruct (process (JObj fields)) as [a|e]; [destruct (result_success a)|];
      (split; [cbn; lia|]); exact Hp.
  - split; [cbn; lia|]. intros pl; split.
    + intros Hin. by apply not_elem_of_nil in Hin.
    + intros (f' & ? & ? & _ & _ & Hf & _ & Ha & _). simplify_eq.
      apply is_opened_iff in Ha. congruence.
Qed.

End Endpoint.

Lemma bad_signature_rejected_witness :
  "s3cret" ≠ "" ∧
  req_signature (demo_request "sha256=forged") ≠
    String.append "sha256=" (demo_hexdigest "s3cret" (req_body (demo_request "sha256=forged"))) ∧
  let '(resp, st', p) := handle "s3cret" demo_hexdigest demo_loads unit (fun _ => Ok tt)
                           (fun _ => true) (fun _ => None) "t0" initial_stats
                           (demo_request "sha256=forged") in
  p = [] ∧ errors st' = S (errors initial_stats) ∧
  issues_triaged st' = issues_triaged initial_stats ∧
  status resp =
    (if String.eqb (req_signature (demo_request "sha256=forged")) "" ||
        (is_ascii_str (String.append "sha256="
           (demo_hexdigest "s3cret" (req_body (demo_request "sha256=forged")))) &&
         is_ascii_str (req_signature (demo_request "sha256=forged")))
     then 401 else 500).
Proof.
  assert (H1 : "s3cret" ≠ "") by discriminate.
  assert (H2 : req_signature (demo_request "sha256=forged") ≠
    String.append "sha256=" (demo_hexdigest "s3cret" (req_body (demo_request "sha256=forged"))))
    by discriminate.
  split; [exact H1|]. split; [exact H2|].
  exact (bad_signature_rejected "s3cret" demo_hexdigest demo_loads unit (fun _ => Ok tt)
           (fun _ => true) (fun _ => None) "t0" initial_stats _ H1 H2).
Defined.

End ServerFacts.

(* ================================================================== *)
(** * Keys of other issues in the registry *)

Module BrokerMore.
Import Broker BrokerFacts.

(** A request for issue 5 while issue 6 waits; the triager answers both. *)
Definition sched_other_issue : list (list event) :=
  [[EvResolve (decision_key 6) reject_record];
   [EvResolve (decision_key 5) approve_record]].

Lemma apply_event_pending k' b ev :
  touches k' ev = false -> pending (apply_event b ev) !! k' = pending b !! k'.
Proof.
  destruct ev as [k r|k|k]; cbn; intros Ht.
  - unfold resolve. by repeat case_match.
  - apply String.eqb_neq in Ht. by rewrite lookup_insert_ne.
  - apply String.eqb_neq in Ht. by rewrite lookup_delete_ne.
Qed.

Lemma apply_events_pending k' evs b :
  Forall (fun ev => touches k' ev = false) evs ->
  pending (apply_events evs b) !! k' = pending b !! k'.
Proof.
  unfold apply_events. revert b.
  induction evs as [|ev evs IH]; intros b Hall; cbn; [done|].
  inversion Hall as [|? ? Ht Hrest]; subst.
  rewrite (IH _ Hrest). by apply apply_event_pending.
Qed.

Lemma wait_loop_pending k k' sched fuel e b :
  (∀ e', Forall (fun ev => touches k' ev = false) (nth e' sched [])) ->
  pending (snd (wait_loop fuel e k sched b)) !! k' = pending b !! k'.
Proof.
  intros Hs. revert e b.
  induction fuel as [|fuel IH]; intros e b; cbn -[timeout_duration Nat.ltb];
    repeat case_match; cbn; try done;
    try (by apply apply_events_pending);
    rewrite IH; by apply apply_events_pending.
Qed.

(** Distinct issue numbers have distinct registry keys. *)
Theorem decision_key_injective n m : decision_key n = decision_key m <-> n = m.
Proof.
  split; [|by intros ->]. unfold decision_key. cbn. intros H.
  repeat (injection H as H). by apply (inj pretty).
Qed.

(** A triage request for issue [n] (whatever becomes of the channel and
    the send) leaves the registry entry of every other key as it found
    it, provided the other execution contexts neither register nor
    remove that key meanwhile; resolving it is allowed. *)
Theorem triage_request_frame n channel_found send_ok sched b k' :
  k' ≠ decision_key n ->
  (∀ e, Forall (fun ev => touches k' ev = false) (nth e sched [])) ->
  pending (snd (bot_send_triage_request n channel_found send_ok sched b)) !! k' =
    pending b !! k'.
Proof.
  intros Hk Hs. unfold bot_send_triage_request.
  destruct channel_found, send_ok; cbn [negb];
    [|cbn [snd remove pending]; by rewrite lookup_delete_ne..].
  destruct (wait_loop _ _ _ _ _) as [r b'] eqn:Hw. cbn [snd remove pending].
  rewrite lookup_delete_ne by done.
  pose proof (wait_loop_pending (decision_key n) k' sched (S timeout_duration) 0
                (register (decision_key n) b) Hs) as Hp.
  rewrite Hw in Hp. cbn [snd] in Hp. rewrite Hp. cbn [register pending].
  by rewrite lookup_insert_ne.
Qed.

Lemma triage_request_frame_witness :
  decision_key 6 ≠ decision_key 5 ∧
  (∀ e, Forall (fun ev => touches (decision_key 6) ev = false) (nth e sched_other_issue [])) ∧
  pending (snd (bot_send_triage_request 5 true true sched_other_issue
                  (register (decision_key 6) empty_broker))) !! decision_key 6 =
    pending (register (decision_key 6) empty_broker) !! decision_key 6.
Proof.
  assert (Hk : decision_key 6 ≠ decision_key 5) by (vm_compute; discriminate).
  assert (Hs : ∀ e, Forall (fun ev => touches (decision_key 6) ev = false)
                      (nth e sched_other_issue [])).
  { intros e. destruct e as [|[|e]]; cbn; [repeat constructor..|].
    destruct e; constructor. }
  split; [exact Hk|]. split; [exact Hs|].
  exact (triage_request_frame 5 true true sched_other_issue _ _ Hk Hs).
Defined.

End BrokerMore.
